(** * PinePace: the road-advisory logic of [MapScreen.tsx]

    A shallow embedding of the map screen's logic: the speed table and the
    resolution of a road's limit, the nearest-road scan run on every
    position fix, the spoken advisory with its cooldown, the route search
    with its road matching, and the suggestion filter.

    Conventions of the model.
    - A JavaScript [number] is an exact rational ([Q]); [Num] adds the
      [Infinity] the scan starts from. Rounding is not modelled.
      [Date.now()] is an integer number of milliseconds ([Z]).
    - A JavaScript string is a [string] of 8-bit code units.
    - [null] and [undefined] are [None].
    - A call that throws returns [None].
    - React state and refs are the fields of one record, [State]; a handler
      maps the state before it to the state after it and the list of the
      effects it has on the outside (speech, alerts, requests). *)

From Stdlib Require Import QArith Qabs Lqa ZArith Ascii String.
From stdpp Require Import gmap strings.

Local Open Scope Q_scope.

(** ** Numbers *)

(** A number the code compares: finite, or [Infinity]. A distance that is
    [NaN] fails both comparisons the code makes with it on the left,
    [dist < minDist] and [dist <= 30], as [Infinity] does. *)
Inductive Num : Type :=
  | Fin (q : Q)
  | PosInf.

(** [x < y] on finite numbers, as a boolean. *)
Definition Qltb (x y : Q) : bool := negb (Qle_bool y x).

(** JavaScript's [a < b]. *)
Definition num_ltb (a b : Num) : bool :=
  match a, b with
  | Fin x, Fin y => Qltb x y
  | Fin _, PosInf => true
  | PosInf, _ => false
  end.

(** JavaScript's [a <= b]. *)
Definition num_leb (a b : Num) : bool :=
  match a, b with
  | Fin x, Fin y => Qle_bool x y
  | _, PosInf => true
  | PosInf, Fin _ => false
  end.

Definition num_lt (a b : Num) : Prop :=
  match a, b with
  | Fin x, Fin y => x < y
  | Fin _, PosInf => True
  | PosInf, _ => False
  end.

Definition num_le (a b : Num) : Prop :=
  match a, b with
  | Fin x, Fin y => x <= y
  | _, PosInf => True
  | PosInf, Fin _ => False
  end.

(** ** Strings *)

(** The white space [String.prototype.trim] removes, among the code units
    below 256: tab, line feed, vertical tab, form feed, carriage return,
    space and no-break space. *)
Definition isWhiteSpace (c : ascii) : bool :=
  let n := N_of_ascii c in
  ((9 <=? n) && (n <=? 13) || (n =? 32) || (n =? 160))%N.

(** [!s] for a string [s]: only the empty string is falsy. *)
Definition isEmpty (s : string) : bool :=
  match s with
  | EmptyString => true
  | String _ _ => false
  end.

(** A string that is empty or holds white space only. *)
Fixpoint blank (s : string) : bool :=
  match s with
  | EmptyString => true
  | String c s' => isWhiteSpace c && blank s'
  end.

Fixpoint trimStart (s : string) : string :=
  match s with
  | EmptyString => EmptyString
  | String c s' => if isWhiteSpace c then trimStart s' else s
  end.

Fixpoint trimEnd (s : string) : string :=
  match s with
  | EmptyString => EmptyString
  | String c s' =>
      let t := trimEnd s' in
      if isEmpty t && isWhiteSpace c then EmptyString else String c t
  end.

Definition trim (s : string) : string := trimEnd (trimStart s).


(** [String.prototype.toLowerCase] on one code unit below 256: the letters
    A to Z, and the Latin-1 capitals 192 to 222 without the multiplication
    sign 215, move up by 32. *)
Definition lowerChar (c : ascii) : ascii :=
  let n := N_of_ascii c in
  if ((65 <=? n) && (n <=? 90)
      || (192 <=? n) && (n <=? 222) && negb (n =? 215))%N
  then ascii_of_N (n + 32)
  else c.

Fixpoint toLowerCase (s : string) : string :=
  match s with
  | EmptyString => EmptyString
  | String c s' => String (lowerChar c) (toLowerCase s')
  end.

(** [s.startsWith(t)]. *)
Fixpoint startsWith (s t : string) {struct t} : bool :=
  match t, s with
  | EmptyString, _ => true
  | String _ _, EmptyString => false
  | String b t', String a s' => if Ascii.eqb a b then startsWith s' t' else false
  end.

(** [s.includes(t)]: [t] occurs in [s] at some position. *)
Fixpoint includes (s t : string) : bool :=
  startsWith s t ||
  match s with
  | EmptyString => false
  | String _ s' => includes s' t
  end.

(** ** The road data *)

(** A GeoJSON position, [[longitude, latitude]]. *)
Definition Position : Type := (Q * Q)%type.

(** [{ name: string; speed_limit?: number }]; the code reads [name] as a
    field that can be missing. *)
Record Properties : Type := {
  name : option string;
  speed_limit : option Q
}.

(** [RoadFeature]: a GeoJSON feature whose geometry is a line string.
    [geometry] holds [geometry.coordinates]; it is [None] when the feature
    has no geometry object. *)
Record RoadFeature : Type := {
  properties : option Properties;
  geometry : option (list Position)
}.

(** What a limit can hold: a number, or what the object [roadsSpeeds]
    inherits under a property name of [Object.prototype], a function or,
    under "__proto__", the prototype itself. *)
Inductive Value : Type :=
  | Number (q : Q)
  | Inherited (key : string).

(** The property names of [Object.prototype]. *)
Definition objectPrototypeKeys : list string :=
  [ "constructor"; "hasOwnProperty"; "isPrototypeOf"; "propertyIsEnumerable";
    "toLocaleString"; "toString"; "valueOf"; "__proto__";
    "__defineGetter__"; "__defineSetter__"; "__lookupGetter__";
    "__lookupSetter__" ]%string.

(** The entries written in the object literal [roadsSpeeds]. *)
Definition roadsSpeedsEntries : gmap string Q :=
  list_to_map
    [ ("Session Road"%string, 20);
      ("Marcos Highway"%string, 60);
      ("Kennon Road"%string, 50);
      ("Naguilian Road"%string, 50);
      ("Asin Road"%string, 40);
      ("Loakan Road"%string, 40);
      ("Halsema Highway"%string, 50);
      ("Magsaysay Avenue"%string, 30);
      ("Governor Pack Road"%string, 30);
      ("Military Cut-Off Road"%string, 20) ].

(** [roadsSpeeds[key]]: the entry under [key]; without one, what the plain
    object inherits under [key]; [undefined] otherwise. *)
Definition roadsSpeeds (key : string) : option Value :=
  match roadsSpeedsEntries !! key with
  | Some l => Some (Number l)
  | None =>
      if existsb (String.eqb key) objectPrototypeKeys
      then Some (Inherited key)
      else None
  end.

(** [road.properties?.name] *)
Definition propName (road : RoadFeature) : option string :=
  properties road ≫= name.

(** [road.properties?.speed_limit] *)
Definition propSpeedLimit (road : RoadFeature) : option Q :=
  properties road ≫= speed_limit.

(** [s || null]: the empty string is falsy. *)
Definition orNull (s : option string) : option string :=
  match s with
  | Some s' => if isEmpty s' then None else Some s'
  | None => None
  end.

(** [explicit ?? roadsSpeeds[key] ?? 30] *)
Definition resolveLimit (explicit : option Q) (key : string) : Value :=
  match explicit with
  | Some l => Number l
  | None =>
      match roadsSpeeds key with
      | Some v => v
      | None => Number 30
      end
  end.

(** The position callback: [nearest = road.properties?.name || null]. *)
Definition nearestName (road : RoadFeature) : option string :=
  orNull (propName road).

(** The position callback:
    [limit = road.properties?.speed_limit ?? roadsSpeeds[nearest ?? ""] ?? 30]. *)
Definition nearestLimit (road : RoadFeature) : Value :=
  resolveLimit (propSpeedLimit road) (default ""%string (nearestName road)).

(** The route search: [name = road.properties?.name ?? "Unnamed"]. *)
Definition routeName (road : RoadFeature) : string :=
  default "Unnamed"%string (propName road).

(** The route search:
    [limit = road.properties?.speed_limit ?? roadsSpeeds[name] ?? 30]. *)
Definition routeLimit (road : RoadFeature) : Value :=
  resolveLimit (propSpeedLimit road) (routeName road).

(** [v <= n] for a number [n]: a value that is not a number converts to
    [NaN], and the comparison is false. *)
Definition value_leb (v : Value) (n : Q) : bool :=
  match v with
  | Number l => Qle_bool l n
  | Inherited _ => false
  end.

(** [userSpeed > limit + 3]: for a limit that is not a number, [limit + 3]
    is a string that is no numeral, and the comparison is false. *)
Definition exceedsLimit (userSpeed : Q) (limit : Value) : bool :=
  match limit with
  | Number l => Qltb (l + 3) userSpeed
  | Inherited _ => false
  end.

Definition getColorForSpeed (limit : Value) : string :=
  if value_leb limit 20 then "rgba(255,255,0,0.9)"%string
  else if value_leb limit 30 then "rgba(255,165,0,0.9)"%string
  else if value_leb limit 40 then "rgba(255,0,0,0.9)"%string
  else "rgba(0,128,0,0.9)"%string.

(** ** The screen's state *)

Module Region.
Record t : Type := {
  latitude : Q;
  longitude : Q;
  latitudeDelta : Q;
  longitudeDelta : Q
}.
End Region.

(** An element of [routeCoords]: [{ latitude, longitude }]. *)
Module LatLng.
Record t : Type := {
  latitude : Q;
  longitude : Q
}.
End LatLng.

(** The value held by [userLocationRef]: [{ lat, lon }]. *)
Module UserLoc.
Record t : Type := {
  lat : Q;
  lon : Q
}.
End UserLoc.

(** An element of [routeRoads]: [{ name, speed_limit, color }]. *)
Module RouteRoad.
Record t : Type := {
  name : string;
  speed_limit : Value;
  color : string
}.
End RouteRoad.

(** [loc.coords] of a position fix; [speed] is in metres per second and
    can be [null]. *)
Module Coords.
Record t : Type := {
  latitude : Q;
  longitude : Q;
  speed : option Q
}.
End Coords.

Record State : Type := {
  region : Region.t;
  searchText : string;
  suggestions : list RoadFeature;
  userSpeed : Q;
  currentRoad : option string;
  showLegend : bool;
  routeCoords : list LatLng.t;
  routeRoads : list RouteRoad.t;
  lastSpokenRef : Z;
  userLocationRef : option UserLoc.t
}.

(** The values given to [useState] and [useRef]. *)
Definition initialState : State := {|
  region := {| Region.latitude := 16412 # 1000; Region.longitude := 120599 # 1000;
               Region.latitudeDelta := 5 # 100; Region.longitudeDelta := 5 # 100 |};
  searchText := ""%string;
  suggestions := [];
  userSpeed := 0;
  currentRoad := None;
  showLegend := false;
  routeCoords := [];
  routeRoads := [];
  lastSpokenRef := 0%Z;
  userLocationRef := None
|}.

Definition setRegion (f : Region.t -> Region.t) (st : State) : State :=
  {| region := f (region st); searchText := searchText st;
     suggestions := suggestions st; userSpeed := userSpeed st;
     currentRoad := currentRoad st; showLegend := showLegend st;
     routeCoords := routeCoords st; routeRoads := routeRoads st;
     lastSpokenRef := lastSpokenRef st; userLocationRef := userLocationRef st |}.

Definition setSearchText (v : string) (st : State) : State :=
  {| region := region st; searchText := v;
     suggestions := suggestions st; userSpeed := userSpeed st;
     currentRoad := currentRoad st; showLegend := showLegend st;
     routeCoords := routeCoords st; routeRoads := routeRoads st;
     lastSpokenRef := lastSpokenRef st; userLocationRef := userLocationRef st |}.

Definition setSuggestions (v : list RoadFeature) (st : State) : State :=
  {| region := region st; searchText := searchText st;
     suggestions := v; userSpeed := userSpeed st;
     currentRoad := currentRoad st; showLegend := showLegend st;
     routeCoords := routeCoords st; routeRoads := routeRoads st;
     lastSpokenRef := lastSpokenRef st; userLocationRef := userLocationRef st |}.

Definition setUserSpeed (v : Q) (st : State) : State :=
  {| region := region st; searchText := searchText st;
     suggestions := suggestions st; userSpeed := v;
     currentRoad := currentRoad st; showLegend := showLegend st;
     routeCoords := routeCoords st; routeRoads := routeRoads st;
     lastSpokenRef := lastSpokenRef st; userLocationRef := userLocationRef st |}.

Definition setCurrentRoad (v : option string) (st : State) : State :=
  {| region := region st; searchText := searchText st;
     suggestions := suggestions st; userSpeed := userSpeed st;
     currentRoad := v; showLegend := showLegend st;
     routeCoords := routeCoords st; routeRoads := routeRoads st;
     lastSpokenRef := lastSpokenRef st; userLocationRef := userLocationRef st |}.

Definition setShowLegend (v : bool) (st : State) : State :=
  {| region := region st; searchText := searchText st;
     suggestions := suggestions st; userSpeed := userSpeed st;
     currentRoad := currentRoad st; showLegend := v;
     routeCoords := routeCoords st; routeRoads := routeRoads st;
     lastSpokenRef := lastSpokenRef st; userLocationRef := userLocationRef st |}.

Definition setRouteCoords (v : list LatLng.t) (st : State) : State :=
  {| region := region st; searchText := searchText st;
     suggestions := suggestions st; userSpeed := userSpeed st;
     currentRoad := currentRoad st; showLegend := showLegend st;
     routeCoords := v; routeRoads := routeRoads st;
     lastSpokenRef := lastSpokenRef st; userLocationRef := userLocationRef st |}.

Definition setRouteRoads (v : list RouteRoad.t) (st : State) : State :=
  {| region := region st; searchText := searchText st;
     suggestions := suggestions st; userSpeed := userSpeed st;
     currentRoad := currentRoad st; showLegend := showLegend st;
     routeCoords := routeCoords st; routeRoads := v;
     lastSpokenRef := lastSpokenRef st; userLocationRef := userLocationRef st |}.

(** [lastSpokenRef.current = v] *)
Definition setLastSpoken (v : Z) (st : State) : State :=
  {| region := region st; searchText := searchText st;
     suggestions := suggestions st; userSpeed := userSpeed st;
     currentRoad := currentRoad st; showLegend := showLegend st;
     routeCoords := routeCoords st; routeRoads := routeRoads st;
     lastSpokenRef := v; userLocationRef := userLocationRef st |}.

(** [userLocationRef.current = v] *)
Definition setUserLocation (v : option UserLoc.t) (st : State) : State :=
  {| region := region st; searchText := searchText st;
     suggestions := suggestions st; userSpeed := userSpeed st;
     currentRoad := currentRoad st; showLegend := showLegend st;
     routeCoords := routeCoords st; routeRoads := routeRoads st;
     lastSpokenRef := lastSpokenRef st; userLocationRef := v |}.

(** ** Effects on the outside *)

(** A piece of a template literal: literal or interpolated text, or an
    interpolated limit. *)
Inductive Piece : Type :=
  | Txt (s : string)
  | Val (v : Value).

Definition Template : Type := list Piece.

Inductive Effect : Type :=
  | SpeechStop
  | SpeechSpeak (text : Template)
  | AlertAlert (title message : string)
  | FetchGeocode (q : string)
  | FetchRoute (origin : UserLoc.t) (destLon destLat : Q)
  | AnimateToRegion (mid : option LatLng.t) (latitudeDelta longitudeDelta : Q) (duration : Z)
  | ConsoleError.

(** [speak(text)]: stop the current utterance, then speak. *)
Definition speak (text : Template) : list Effect :=
  [SpeechStop; SpeechSpeak text].

Definition overspeedText (road : string) (limit : Value) : Template :=
  [Txt "Warning! You are overspeeding on "; Txt road; Txt ". The limit is "; Val limit; Txt "."].

Definition normalText (road : string) (limit : Value) : Template :=
  [Txt "You are now on "; Txt road; Txt ". The speed limit is "; Val limit; Txt "."].

Definition routeFoundText (query : string) : Template :=
  [Txt "Route found to "; Txt query; Txt "."].

(** The utterances among a handler's effects. *)
Definition spoken (es : list Effect) : list Template :=
  omap (fun e => match e with SpeechSpeak t => Some t | _ => None end) es.

(** The alerts among a handler's effects. *)
Definition alerts (es : list Effect) : list (string * string) :=
  omap (fun e => match e with AlertAlert t m => Some (t, m) | _ => None end) es.

(** ** Answers of the geocoder and of the router *)

(** The outcome of [await fetch(...)] followed by [await res.json()]. *)
Inductive Response (A : Type) : Type :=
  | Rejected
  | Resolved (body : A).

Arguments Rejected {A}.
Arguments Resolved {A} body.

(** A geocoder candidate, its [lat] and [lon] read by [parseFloat]. *)
Module Candidate.
Record t : Type := {
  lat : Q;
  lon : Q
}.
End Candidate.

(** An element of [routeJson.routes]; [coordinates] is
    [geometry.coordinates], [None] when there is no geometry to read. *)
Module Route.
Record t : Type := {
  coordinates : option (list Position)
}.
End Route.

(** ** A stand-in for turf, to run the handlers on concrete inputs

    [sampleLineString] throws on fewer than two positions and otherwise
    builds a feature with empty properties. [samplePointToLineDistance]
    throws on a feature without geometry; otherwise it is the least
    distance to a vertex of the line, on a grid of 111000 metres to the
    degree: 0 at a vertex, far above 30 a degree away. *)

Definition sampleLineString (cs : list Position) : option RoadFeature :=
  if (length cs <? 2)%nat then None
  else Some {| properties := Some {| name := None; speed_limit := None |};
               geometry := Some cs |}.

Definition gridMetres (p v : Position) : Q :=
  (Qabs (fst p - fst v) + Qabs (snd p - snd v)) * 111000.

Definition samplePointToLineDistance (p : Position) (line : RoadFeature) : option Num :=
  match geometry line with
  | None => None
  | Some cs =>
      Some (fold_right
              (fun v acc => if num_ltb (Fin (gridMetres p v)) acc
                            then Fin (gridMetres p v) else acc)
              PosInf cs)
  end.

Definition namedRoad (n : string) (l : option Q) (cs : list Position) : RoadFeature :=
  {| properties := Some {| name := Some n; speed_limit := l |};
     geometry := Some cs |}.

Definition sessionRoad : RoadFeature :=
  namedRoad "Session Road" None [(120596 # 1000, 16412 # 1000); (120599 # 1000, 16414 # 1000)].

Definition kennonRoad : RoadFeature :=
  namedRoad "Kennon Road" None [(1206 # 10, 164 # 10); (12061 # 100, 1641 # 100)].

(** A feature without a geometry object. *)
Definition brokenRoad : RoadFeature :=
  {| properties := Some {| name := Some "Broken Road"%string; speed_limit := None |};
     geometry := None |}.

(** ** The handlers *)

(** The three variables of the nearest-road scan. *)
Record Scan : Type := {
  nearest : option string;
  limit : Value;
  minDist : Num
}.

(** [nearest = null], [limit = 0], [minDist = Infinity]. *)
Definition scanStart : Scan :=
  {| nearest := None; limit := Number 0; minDist := PosInf |}.

(** The test [nearest && minDist <= 30] of the position callback. *)
Definition onRoad (s : Scan) : bool :=
  match nearest s with
  | Some n => negb (isEmpty n) && num_leb (minDist s) (Fin 30)
  | None => false
  end.

(** Advisories, each with its clock reading, every one more than 7000 ms
    after the one before it, the first more than 7000 ms after [last]. *)
Fixpoint spaced (last : Z) (l : list (Z * Template)) : Prop :=
  match l with
  | [] => True
  | (t, _) :: l' => (t - last > 7000)%Z /\ spaced t l'
  end.

(** What the map draws for one entry of [routeRoads]: nothing ([null]),
    or a polyline. *)
Inductive Segment : Type :=
  | NoSegment
  | Polyline (coordinates : list LatLng.t) (strokeColor : string).

(** What reaches the screen: a position fix with the clock reading at its
    arrival; a change of the search text; the submission of the search
    text and the press of the [i]-th suggestion, each with what the
    geocoder and the router answer. A search is taken as one step, from
    its request to its end; it writes to the state in one block, after its
    last [await], so the state it leaves is that of a step taken then. *)
Inductive Event : Type :=
  | PositionFix (coords : Coords.t) (now : Z)
  | ChangeText (text : string)
  | SubmitEditing (geoRes : Response (option (list Candidate.t)))
      (routeRes : Response (option (list Route.t)))
  | PressSuggestion (i : nat) (geoRes : Response (option (list Candidate.t)))
      (routeRes : Response (option (list Route.t))).

(** The requests among a handler's effects. *)
Definition requests (es : list Effect) : list Effect :=
  List.filter (fun e => match e with
                        | FetchGeocode _ | FetchRoute _ _ _ => true
                        | _ => false
                        end) es.

(** [([lon, lat]) => ({ latitude: lat, longitude: lon })] *)
Definition toLatLng (c : Position) : LatLng.t :=
  {| LatLng.latitude := snd c; LatLng.longitude := fst c |}.

(** [f.properties?.name === n] *)
Definition bearsName (n : string) (f : RoadFeature) : bool :=
  match propName f with
  | Some m => String.eqb m n
  | None => false
  end.

Section Engine.

(** turf's [lineString]; turf's [pointToLineDistance], applied to the
    [point] of a position and asked for metres; and [roadFeatures], the
    features of the bundled file [baguioRoads.json]. *)
Variable turfLineString : list Position -> option RoadFeature.
Variable pointToLineDistance : Position -> RoadFeature -> option Num.
Variable roadFeatures : list RoadFeature.

(** The two calls inside the [try] of the scan: any of reading the
    coordinates, building the line and measuring can throw. *)
Definition tryDistance (p : Position) (road : RoadFeature) : option Num :=
  cs ← geometry road;
  line ← turfLineString cs;
  pointToLineDistance p line.

(** One turn of the scan's loop; the empty [catch] keeps the variables. *)
Definition scanRoad (p : Position) (acc : Scan) (road : RoadFeature) : Scan :=
  match tryDistance p road with
  | Some dist =>
      if num_ltb dist (minDist acc)
      then {| nearest := nearestName road;
              limit := nearestLimit road;
              minDist := dist |}
      else acc
  | None => acc
  end.

Definition scanRoads (p : Position) : Scan :=
  fold_left (scanRoad p) roadFeatures scanStart.

(** What the scan's variables hold after the features [roads]: a lower
    bound of every distance that could be measured, and either the initial
    values, when no distance was finite, or the values of the first
    feature at the least distance. *)
Definition scanned (p : Position) (roads : list RoadFeature) (s : Scan) : Prop :=
  (forall road d, road ∈ roads -> tryDistance p road = Some d -> num_le (minDist s) d) /\
  ((s = scanStart /\
    forall road q, road ∈ roads -> tryDistance p road <> Some (Fin q)) \/
   (exists before f after m,
      roads = before ++ f :: after /\
      tryDistance p f = Some (Fin m) /\
      s = {| nearest := nearestName f; limit := nearestLimit f; minDist := Fin m |} /\
      forall g d, g ∈ before -> tryDistance p g = Some d -> num_lt (Fin m) d)).

(** The first statements of the position callback: the last known
    location, the centre of the map region and the speed readout, the
    speed converted from m/s to km/h. *)
Definition recordFix (coords : Coords.t) (st : State) : State :=
  let latitude := Coords.latitude coords in
  let longitude := Coords.longitude coords in
  let st1 :=
    setUserLocation (Some {| UserLoc.lat := latitude; UserLoc.lon := longitude |}) st in
  let st2 :=
    setRegion (fun r => {| Region.latitude := latitude;
                           Region.longitude := longitude;
                           Region.latitudeDelta := Region.latitudeDelta r;
                           Region.longitudeDelta := Region.longitudeDelta r |}) st1 in
  setUserSpeed (default 0 (Coords.speed coords) * (36 # 10)) st2.

(** The callback of [watchPositionAsync], with the [userSpeed] its closure
    holds as a parameter; [now] is what [Date.now()] returns. *)
Definition onPosition (capturedUserSpeed : Q) (st : State)
    (coords : Coords.t) (now : Z) : State * list Effect :=
  let st3 := recordFix coords st in
  let s := scanRoads (Coords.longitude coords, Coords.latitude coords) in
  match nearest s with
  | Some n =>
      if negb (isEmpty n) && num_leb (minDist s) (Fin 30) then
        let st4 := setCurrentRoad (Some n) st3 in
        if (now - lastSpokenRef st4 >? 7000)%Z then
          (setLastSpoken now st4,
           speak (if exceedsLimit capturedUserSpeed (limit s)
                  then overspeedText n (limit s)
                  else normalText n (limit s)))
        else (st4, [])
      else (st3, [])
  | None => (st3, [])
  end.

(** The callback as the running screen has it. The effect that registers
    it has the dependency list [[]]: it runs once, after the first render,
    and the callback it creates then is the one called on every fix. The
    [userSpeed] of that callback is the constant of the first render, the
    initial state. *)
Definition watchCallback : State -> Coords.t -> Z -> State * list Effect :=
  onPosition (userSpeed initialState).

(** The state after a sequence of fixes, each with its clock reading. *)
Fixpoint watchState (st : State) (fixes : list (Coords.t * Z)) : State :=
  match fixes with
  | [] => st
  | (coords, now) :: rest => watchState (fst (watchCallback st coords now)) rest
  end.

(** The advisories spoken over a sequence of fixes, each with the clock
    reading of its fix. *)
Fixpoint announcements (st : State) (fixes : list (Coords.t * Z)) : list (Z * Template) :=
  match fixes with
  | [] => []
  | (coords, now) :: rest =>
      map (fun t => (now, t)) (spoken (snd (watchCallback st coords now)))
      ++ announcements (fst (watchCallback st coords now)) rest
  end.

(** The entry the route matching makes for a road. *)
Definition routeRoadOf (road : RoadFeature) : RouteRoad.t :=
  {| RouteRoad.name := routeName road;
     RouteRoad.speed_limit := routeLimit road;
     RouteRoad.color := getColorForSpeed (routeLimit road) |}.

(** A road within 30 m of some coordinate of the route. *)
Definition near (coords : list Position) (road : RoadFeature) : Prop :=
  exists c d, c ∈ coords /\ pointToLineDistance c road = Some d /\ num_le d (Fin 30).

(** [if (!matched.find((m) => m.name === name)) matched.push(...)] *)
Definition pushRoad (road : RoadFeature) (matched : list RouteRoad.t) : list RouteRoad.t :=
  let name := routeName road in
  let limit := routeLimit road in
  if existsb (fun m => String.eqb (RouteRoad.name m) name) matched then matched
  else matched ++ [{| RouteRoad.name := name;
                      RouteRoad.speed_limit := limit;
                      RouteRoad.color := getColorForSpeed limit |}].

(** The inner loop of the route matching, over the route's coordinates;
    a throwing distance call leaves the loops. *)
Fixpoint matchCoords (road : RoadFeature) (coords : list Position)
    (matched : list RouteRoad.t) : option (list RouteRoad.t) :=
  match coords with
  | [] => Some matched
  | c :: rest =>
      match pointToLineDistance c road with
      | None => None
      | Some dist =>
          matchCoords road rest
            (if num_leb dist (Fin 30) then pushRoad road matched else matched)
      end
  end.

(** The outer loop, over the road features. *)
Fixpoint matchRoadsFrom (roads : list RoadFeature) (coords : list Position)
    (matched : list RouteRoad.t) : option (list RouteRoad.t) :=
  match roads with
  | [] => Some matched
  | road :: rest =>
      match matchCoords road coords matched with
      | None => None
      | Some matched' => matchRoadsFrom rest coords matched'
      end
  end.

Definition matchRoads (coords : list Position) : option (list RouteRoad.t) :=
  matchRoadsFrom roadFeatures coords [].

(** The [catch] of [handleSearch]. *)
Definition failedToFindRoute : list Effect :=
  [ConsoleError; AlertAlert "Error" "Failed to find route."].

(** [handleSearch(query)]. [geoRes] and [routeRes] are what the geocoder
    and the router answer if asked; a [null] body, like an empty array,
    has no truthy [length]. *)
Definition handleSearch (st : State) (query : string)
    (geoRes : Response (option (list Candidate.t)))
    (routeRes : Response (option (list Route.t))) : State * list Effect :=
  if isEmpty (trim query) then (st, [])
  else
    let asked := [FetchGeocode (query +:+ ", Baguio City, Philippines")] in
    match geoRes with
    | Rejected => (st, asked ++ failedToFindRoute)
    | Resolved None | Resolved (Some []) =>
        (st, asked ++ [AlertAlert "Not found" "Could not find that location."])
    | Resolved (Some (dest :: _)) =>
        match userLocationRef st with
        | None => (st, asked ++ [AlertAlert "Error" "User location not yet detected."])
        | Some userLoc =>
            let asked2 :=
              asked ++ [FetchRoute userLoc (Candidate.lon dest) (Candidate.lat dest)] in
            match routeRes with
            | Rejected => (st, asked2 ++ failedToFindRoute)
            | Resolved None | Resolved (Some []) =>
                (st, asked2 ++ [AlertAlert "Routing failed" "No route found."])
            | Resolved (Some (route :: _)) =>
                match Route.coordinates route with
                | None => (st, asked2 ++ failedToFindRoute)
                | Some line =>
                    let coords :=
                      map (fun c : Position =>
                             {| LatLng.latitude := snd c; LatLng.longitude := fst c |})
                          line in
                    let st1 := setShowLegend true (setRouteCoords coords st) in
                    match matchRoads line with
                    | None => (st1, asked2 ++ failedToFindRoute)
                    | Some matched =>
                        (setRouteRoads matched st1,
                         asked2
                         ++ [AnimateToRegion (coords !! (length coords / 2)%nat)
                               (3 # 100) (3 # 100) 1000]
                         ++ speak (routeFoundText query))
                    end
                end
            end
        end
    end.

(** [text] occurs in [n], letter case apart. *)
Definition containsIgnoringCase (n text : string) : Prop :=
  exists pre post, toLowerCase n = pre +:+ toLowerCase text +:+ post.

(** The filter of [handleSearchChange]:
    [r.properties?.name?.toLowerCase().includes(text.toLowerCase())]. *)
Definition nameIncludes (text : string) (r : RoadFeature) : bool :=
  match propName r with
  | Some n => includes (toLowerCase n) (toLowerCase text)
  | None => false
  end.

(** [handleSearchChange(text)]. *)
Definition handleSearchChange (st : State) (text : string) : State :=
  let st1 := setSearchText text st in
  if isEmpty (trim text) then setSuggestions [] st1
  else setSuggestions (take 5 (List.filter (nameIncludes text) roadFeatures)) st1.

(** The body of [routeRoads.map((r, i) => ...)] in the view: the first
    feature bearing the entry's name, drawn in the entry's colour; [null]
    when no feature bears it. Reading the coordinates of a feature without
    geometry throws. *)
Definition renderSegment (r : RouteRoad.t) : option Segment :=
  match List.find (bearsName (RouteRoad.name r)) roadFeatures with
  | None => Some NoSegment
  | Some feature =>
      match geometry feature with
      | None => None
      | Some cs => Some (Polyline (map toLatLng cs) (RouteRoad.color r))
      end
  end.

(** [onPress] of a suggestion: [handleSearch(road.properties?.name ?? "")]. *)
Definition pressSuggestion (st : State) (road : RoadFeature)
    (geoRes : Response (option (list Candidate.t)))
    (routeRes : Response (option (list Route.t))) : State * list Effect :=
  handleSearch st (default ""%string (propName road)) geoRes routeRes.

(** The handler each event runs. The text field submits [searchText]; a
    suggestion that is not on the screen cannot be pressed. *)
Definition handleEvent (st : State) (e : Event) : State * list Effect :=
  match e with
  | PositionFix coords now => watchCallback st coords now
  | ChangeText text => (handleSearchChange st text, [])
  | SubmitEditing geoRes routeRes => handleSearch st (searchText st) geoRes routeRes
  | PressSuggestion i geoRes routeRes =>
      match suggestions st !! i with
      | Some road => pressSuggestion st road geoRes routeRes
      | None => (st, [])
      end
  end.

(** The state after a sequence of events. *)
Fixpoint runEvents (st : State) (events : list Event) : State :=
  match events with
  | [] => st
  | e :: rest => runEvents (fst (handleEvent st e)) rest
  end.

End Engine.

(** ** Runs on the stand-in *)

Definition sampleScan (roads : list RoadFeature) (p : Position) : Scan :=
  scanRoads sampleLineString samplePointToLineDistance roads p.

Definition sampleCallback (roads : list RoadFeature) :
    State -> Coords.t -> Z -> State * list Effect :=
  watchCallback sampleLineString samplePointToLineDistance roads.

Definition sampleSearch (roads : list RoadFeature) :
    State -> string -> Response (option (list Candidate.t)) ->
    Response (option (list Route.t)) -> State * list Effect :=
  handleSearch samplePointToLineDistance roads.

(** A fix on the first vertex of [sessionRoad], at 20 m/s (72 km/h). *)
Definition fastOnSession : Coords.t :=
  {| Coords.latitude := 16412 # 1000; Coords.longitude := 120596 # 1000;
     Coords.speed := Some 20 |}.

(** A fix a degree and more away from both sample roads. *)
Definition farAway : Coords.t :=
  {| Coords.latitude := 18; Coords.longitude := 122; Coords.speed := Some 10 |}.

(** A state in which a fix has been received. *)
Definition locatedState : State :=
  setUserLocation (Some {| UserLoc.lat := 16412 # 1000; UserLoc.lon := 120596 # 1000 |})
    initialState.

Definition oneCandidate : Response (option (list Candidate.t)) :=
  Resolved (Some [{| Candidate.lat := 164 # 10; Candidate.lon := 1206 # 10 |}]).

(** A route whose single coordinate is the first vertex of [kennonRoad]. *)
Definition routeOnKennon : Response (option (list Route.t)) :=
  Resolved (Some [{| Route.coordinates := Some [(1206 # 10, 164 # 10)] |}]).

(** A feature without a name, on the first vertex of [sessionRoad]. *)
Definition namelessRoad : RoadFeature :=
  {| properties := Some {| name := None; speed_limit := None |};
     geometry := Some [(120596 # 1000, 16412 # 1000); (120597 # 1000, 16412 # 1000)] |}.

(** A second feature named "Kennon Road", a degree away from the first,
    with a limit of its own. *)
Definition kennonRoadFar : RoadFeature :=
  namedRoad "Kennon Road" (Some 30) [(1216 # 10, 174 # 10); (12161 # 100, 1741 # 100)].

(** A road named "constructor", without a limit of its own. *)
Definition constructorRoad : RoadFeature :=
  namedRoad "constructor" None [(1206 # 10, 164 # 10); (12061 # 100, 1641 # 100)].

(** A route with one coordinate on [sessionRoad] and one on [kennonRoad]. *)
Definition routeOnBoth : Response (option (list Route.t)) :=
  Resolved (Some [{| Route.coordinates :=
                       Some [(1206 # 10, 164 # 10); (120596 # 1000, 16412 # 1000)] |}]).

(** A fix on the first vertex of [kennonRoad]. *)
Definition onKennon : Coords.t :=
  {| Coords.latitude := 164 # 10; Coords.longitude := 1206 # 10; Coords.speed := None |}.

(** * Properties *)

(** ** Comparisons *)

Lemma Qltb_lt (x y : Q) : Qltb x y = true <-> x < y.
Proof.
  unfold Qltb. rewrite negb_true_iff. split.
  - intros H. apply Qnot_le_lt. intros Hle.
    apply Qle_bool_iff in Hle. congruence.
  - intros H. destruct (Qle_bool y x) eqn:E; [|reflexivity].
    apply Qle_bool_iff in E. lra.
Qed.

Lemma Qltb_ge (x y : Q) : Qltb x y = false <-> y <= x.
Proof.
  unfold Qltb. rewrite negb_false_iff. apply Qle_bool_iff.
Qed.

Lemma Qle_bool_gt (x y : Q) : Qle_bool x y = false <-> y < x.
Proof.
  split.
  - intros H. apply Qnot_le_lt. intros Hle.
    apply Qle_bool_iff in Hle. congruence.
  - intros H. destruct (Qle_bool x y) eqn:E; [|reflexivity].
    apply Qle_bool_iff in E. lra.
Qed.

Lemma num_ltb_lt (a b : Num) : num_ltb a b = true <-> num_lt a b.
Proof.
  destruct a, b; simpl; try apply Qltb_lt; intuition discriminate.
Qed.

Lemma num_leb_le (a b : Num) : num_leb a b = true <-> num_le a b.
Proof.
  destruct a, b; simpl; try apply Qle_bool_iff; intuition discriminate.
Qed.

Lemma num_ltb_ge (a b : Num) : num_ltb a b = false <-> num_le b a.
Proof.
  destruct a, b; simpl; try apply Qltb_ge; intuition discriminate.
Qed.

Lemma num_le_refl (a : Num) : num_le a a.
Proof. destruct a; simpl; [lra | exact I]. Qed.

Lemma num_le_trans (a b c : Num) : num_le a b -> num_le b c -> num_le a c.
Proof. destruct a, b, c; simpl; try tauto; lra. Qed.

Lemma num_lt_le (a b : Num) : num_lt a b -> num_le a b.
Proof. destruct a, b; simpl; try tauto; lra. Qed.

Lemma num_lt_le_trans (a b c : Num) : num_lt a b -> num_le b c -> num_lt a c.
Proof. destruct a, b, c; simpl; try tauto; lra. Qed.

(** ** The limit of a road *)

Lemma roadsSpeeds_no_empty_key : roadsSpeeds ""%string = None.
Proof. reflexivity. Qed.

Lemma roadsSpeeds_no_Unnamed : roadsSpeeds "Unnamed"%string = None.
Proof. reflexivity. Qed.

Lemma nearestName_key (road : RoadFeature) (n : string) :
  propName road = Some n ->
  roadsSpeeds (default ""%string (nearestName road)) = roadsSpeeds n.
Proof.
  intros Hn. unfold nearestName. rewrite Hn. simpl.
  destruct n; reflexivity.
Qed.

(** The order in which a limit is resolved, in the position callback and
    in the route search alike: the feature's own [speed_limit]; without
    one, what [roadsSpeeds] holds under the feature's name, entry or
    inherited property; without either, 30. *)
Lemma limit_resolution_order (road : RoadFeature) :
  (forall l, propSpeedLimit road = Some l ->
     nearestLimit road = Number l /\ routeLimit road = Number l) /\
  (forall n v, propSpeedLimit road = None -> propName road = Some n ->
     roadsSpeeds n = Some v ->
     nearestLimit road = v /\ routeLimit road = v) /\
  (propSpeedLimit road = None ->
     (forall n, propName road = Some n -> roadsSpeeds n = None) ->
     nearestLimit road = Number 30 /\ routeLimit road = Number 30) /\
  (propSpeedLimit road = None -> propName road = Some "Session Road"%string ->
     nearestLimit road = Number 20 /\ routeLimit road = Number 20).
Proof.
  assert (Hkey : forall n v, propSpeedLimit road = None -> propName road = Some n ->
            roadsSpeeds n = Some v ->
            nearestLimit road = v /\ routeLimit road = v).
  { intros n v Hs Hn Hv. unfold nearestLimit, routeLimit, routeName, resolveLimit.
    rewrite Hs, (nearestName_key road n Hn), Hn. simpl. rewrite Hv. auto. }
  split; [|split; [exact Hkey|split]].
  - intros l Hs. unfold nearestLimit, routeLimit, resolveLimit. rewrite Hs. auto.
  - intros Hs Hnone. unfold nearestLimit, routeLimit, routeName, resolveLimit.
    rewrite Hs. destruct (propName road) as [n|] eqn:Hn.
    + rewrite (nearestName_key road n Hn). simpl.
      rewrite (Hnone n eq_refl). auto.
    + unfold nearestName. rewrite Hn. simpl.
      rewrite roadsSpeeds_no_empty_key, roadsSpeeds_no_Unnamed. auto.
  - intros Hs Hn. apply (Hkey "Session Road"%string (Number 20) Hs Hn). reflexivity.
Qed.

(** A name gets the default 30 exactly when it is neither an entry of the
    table nor a property name of [Object.prototype]. *)
Lemma roadsSpeeds_undefined (key : string) :
  roadsSpeeds key = None <->
  roadsSpeedsEntries !! key = None /\ key ∉ objectPrototypeKeys.
Proof.
  unfold roadsSpeeds. destruct (roadsSpeedsEntries !! key) as [l|].
  - split; [discriminate | intros [H _]; discriminate].
  - destruct (existsb (String.eqb key) objectPrototypeKeys) eqn:He.
    + split; [discriminate|]. intros [_ Hout]. exfalso. apply Hout.
      apply existsb_exists in He as (k & Hk & Heq).
      apply String.eqb_eq in Heq. subst k. apply list_elem_of_In, Hk.
    + split; [|reflexivity]. intros _. split; [reflexivity|].
      intros Hin. apply list_elem_of_In in Hin.
      assert (Htrue : existsb (String.eqb key) objectPrototypeKeys = true).
      { apply existsb_exists. exists key. split; [exact Hin | apply String.eqb_refl]. }
      congruence.
Qed.

(** C3, where the code departs from it. A road named "constructor" has no
    limit of its own and no entry in the table; the claim gives it the
    default 30. The code reads [roadsSpeeds["constructor"]], which the
    object inherits: the limit is that function, in the position callback
    and in the route search alike. On a fix on that road the advisory
    names the function as the limit, and a route along it lists the road
    with the function as its limit, in green, where 30 is orange. A road
    of the table, Session Road, resolves to its entry, 20. *)
Theorem inherited_name_gets_no_default_limit :
  propSpeedLimit constructorRoad = None /\
  roadsSpeedsEntries !! "constructor"%string = None /\
  nearestLimit constructorRoad = Inherited "constructor" /\
  routeLimit constructorRoad = Inherited "constructor" /\
  spoken (snd (sampleCallback [constructorRoad] initialState onKennon 1700000000000))
  = [normalText "constructor" (Inherited "constructor")] /\
  routeRoads (fst (sampleSearch [constructorRoad] locatedState "constructor"
                     oneCandidate routeOnKennon))
  = [{| RouteRoad.name := "constructor";
        RouteRoad.speed_limit := Inherited "constructor";
        RouteRoad.color := "rgba(0,128,0,0.9)" |}] /\
  getColorForSpeed (Number 30) = "rgba(255,165,0,0.9)"%string /\
  nearestLimit sessionRoad = Number 20 /\
  routeLimit sessionRoad = Number 20.
Proof. repeat split; vm_compute; reflexivity. Qed.

Example limit_resolution_order_examples :
  (nearestLimit (namedRoad "Session Road" (Some 45) []) = Number 45 /\
   routeLimit (namedRoad "Session Road" (Some 45) []) = Number 45) /\
  (nearestLimit kennonRoad = Number 50 /\ routeLimit kennonRoad = Number 50) /\
  (nearestLimit brokenRoad = Number 30 /\ routeLimit brokenRoad = Number 30) /\
  (nearestLimit sessionRoad = Number 20 /\ routeLimit sessionRoad = Number 20).
Proof.
  split; [|split; [|split]].
  - destruct (limit_resolution_order (namedRoad "Session Road" (Some 45) []))
      as (H & _).
    apply H. reflexivity.
  - destruct (limit_resolution_order kennonRoad) as (_ & H & _).
    apply (H "Kennon Road"%string); reflexivity.
  - destruct (limit_resolution_order brokenRoad) as (_ & _ & H & _).
    apply H; [reflexivity|]. intros n [= <-]. reflexivity.
  - destruct (limit_resolution_order sessionRoad) as (_ & _ & _ & H).
    apply H; reflexivity.
Qed.

(** ** The nearest-road scan *)

Section ScanFacts.

Variable turfLineString : list Position -> option RoadFeature.
Variable pointToLineDistance : Position -> RoadFeature -> option Num.

Local Abbreviation distanceOf := (tryDistance turfLineString pointToLineDistance).
Local Abbreviation scanOver := (scanRoads turfLineString pointToLineDistance).
Local Abbreviation scanned := (scanned turfLineString pointToLineDistance).

Lemma scanRoads_snoc (p : Position) (roads : list RoadFeature) (road : RoadFeature) :
  scanOver (roads ++ [road]) p
  = scanRoad turfLineString pointToLineDistance p (scanOver roads p) road.
Proof. unfold scanRoads. rewrite fold_left_app. reflexivity. Qed.

Lemma scanned_skip (p : Position) (roads : list RoadFeature) (s : Scan) (x : RoadFeature) :
  scanned p roads s ->
  (forall d, distanceOf p x = Some d -> num_le (minDist s) d) ->
  scanned p (roads ++ [x]) s.
Proof.
  intros [Hmin Hcase] Hx. split.
  - intros r d [Hr | Hr%list_elem_of_singleton]%elem_of_app Hd.
    + eauto.
    + subst r. auto.
  - destruct Hcase as [[Hs Hnone] | (before & f & after & m & Hl & Hf & Hs & Hfirst)].
    + left. split; [exact Hs|].
      intros r q [Hr | Hr%list_elem_of_singleton]%elem_of_app Hd.
      * exact (Hnone r q Hr Hd).
      * subst r s. exact (Hx _ Hd).
    + right. exists before, f, (after ++ [x]), m.
      subst roads. rewrite <- app_assoc. auto.
Qed.

Lemma scanned_closer (p : Position) (roads : list RoadFeature) (s : Scan)
    (x : RoadFeature) (dist : Num) :
  scanned p roads s ->
  distanceOf p x = Some dist ->
  num_lt dist (minDist s) ->
  scanned p (roads ++ [x])
    {| nearest := nearestName x; limit := nearestLimit x; minDist := dist |}.
Proof.
  intros [Hmin _] Hx Hlt.
  destruct dist as [m|]; [|destruct (minDist s); contradiction].
  split.
  - intros r d [Hr | Hr%list_elem_of_singleton]%elem_of_app Hd.
    + apply num_lt_le, (num_lt_le_trans _ (minDist s)); eauto.
    + subst r. assert (d = Fin m) by congruence. subst d. apply num_le_refl.
  - right. exists roads, x, [], m. repeat split; auto.
    intros g d Hg Hd. apply (num_lt_le_trans _ (minDist s)); eauto.
Qed.

Lemma scanRoads_scanned (p : Position) (roads : list RoadFeature) :
  scanned p roads (scanOver roads p).
Proof.
  induction roads as [|x roads IH] using rev_ind.
  - split.
    + intros r d Hr. inversion Hr.
    + left. split; [reflexivity|]. intros r q Hr. inversion Hr.
  - rewrite scanRoads_snoc. unfold scanRoad.
    destruct (distanceOf p x) as [dist|] eqn:Hx.
    + destruct (num_ltb dist (minDist (scanOver roads p))) eqn:Hlt.
      * apply num_ltb_lt in Hlt. eapply scanned_closer; eauto.
      * apply num_ltb_ge in Hlt. apply scanned_skip; [exact IH|].
        intros d Hd. congruence.
    + apply scanned_skip; [exact IH|]. intros d Hd. congruence.
Qed.

(** C2, as the code has it. After the scan, [minDist] is below the
    distance of every feature whose distance could be computed. When some
    feature has a finite distance, the scan holds the name, the limit and
    the distance of a feature at that least distance, and every feature
    before it in the index is strictly farther: among equals the first one
    wins. The scan keeps its initial values, and reports no road, exactly
    when no feature has a finite distance that could be computed. *)
Theorem scanRoads_first_nearest (roadFeatures : list RoadFeature) (p : Position) :
  (forall road d, road ∈ roadFeatures -> distanceOf p road = Some d ->
     num_le (minDist (scanOver roadFeatures p)) d) /\
  ((exists road q, road ∈ roadFeatures /\ distanceOf p road = Some (Fin q)) ->
   exists before f after m,
     roadFeatures = before ++ f :: after /\
     distanceOf p f = Some (Fin m) /\
     scanOver roadFeatures p
       = {| nearest := nearestName f; limit := nearestLimit f; minDist := Fin m |} /\
     forall g d, g ∈ before -> distanceOf p g = Some d -> num_lt (Fin m) d) /\
  (scanOver roadFeatures p = scanStart <->
   forall road q, road ∈ roadFeatures -> distanceOf p road <> Some (Fin q)).
Proof.
  destruct (scanRoads_scanned p roadFeatures) as [Hmin Hcase].
  split; [exact Hmin|]. split.
  - intros (r & q & Hr & Hd).
    destruct Hcase as [[_ Hnone] | Hsome]; [|exact Hsome].
    destruct (Hnone r q Hr Hd).
  - split.
    + intros Hs r q Hr Hd. pose proof (Hmin r (Fin q) Hr Hd) as Hle.
      rewrite Hs in Hle. exact Hle.
    + intros Hnone.
      destruct Hcase as [[Hs _] | (before & f & after & m & Hl & Hf & _)]; [exact Hs|].
      destruct (Hnone f m); [|exact Hf].
      subst roadFeatures. apply elem_of_app. right. apply list_elem_of_here.
Qed.

(** A feature whose distance cannot be computed leaves the scan as if it
    were not in the index. *)
Lemma scan_passes_over_throwing_feature (before after : list RoadFeature)
    (road : RoadFeature) (p : Position) :
  distanceOf p road = None ->
  scanOver (before ++ road :: after) p = scanOver (before ++ after) p.
Proof.
  intros Hnone. unfold scanRoads. rewrite !fold_left_app. cbn [fold_left].
  f_equal. unfold scanRoad. rewrite Hnone. reflexivity.
Qed.

(** On an index of one feature, the scan holds that feature and its
    distance. *)
Lemma scan_single_feature (f : RoadFeature) (p : Position) (m : Q) :
  distanceOf p f = Some (Fin m) ->
  scanOver [f] p
  = {| nearest := nearestName f; limit := nearestLimit f; minDist := Fin m |}.
Proof.
  intros Hf. unfold scanRoads. simpl. unfold scanRoad. rewrite Hf. reflexivity.
Qed.

End ScanFacts.

(** A feature without geometry is passed over by the scan, whatever turf
    does: reading its coordinates throws inside the [try]. *)
Lemma scanRoads_only_broken (tls : list Position -> option RoadFeature)
    (ptd : Position -> RoadFeature -> option Num) (p : Position) :
  scanRoads tls ptd [brokenRoad] p = scanStart.
Proof. reflexivity. Qed.

(** C2, the claim as written fails: on an index that is not empty, holding
    one feature without geometry, the scan reports no road. *)
Lemma scan_no_match_on_nonempty_index :
  nearest (sampleScan [brokenRoad] (120596 # 1000, 16412 # 1000)) = None
  /\ [brokenRoad] <> [].
Proof.
  split.
  - unfold sampleScan. rewrite scanRoads_only_broken. reflexivity.
  - discriminate.
Qed.

Lemma scanRoads_first_nearest_witness :
  (exists d,
     tryDistance sampleLineString samplePointToLineDistance
       (120596 # 1000, 16412 # 1000) kennonRoad = Some d /\
     num_le (minDist (sampleScan [brokenRoad; kennonRoad; sessionRoad]
                        (120596 # 1000, 16412 # 1000))) d) /\
  (exists before f after m,
     [brokenRoad; kennonRoad; sessionRoad] = before ++ f :: after /\
     tryDistance sampleLineString samplePointToLineDistance
       (120596 # 1000, 16412 # 1000) f = Some (Fin m) /\
     sampleScan [brokenRoad; kennonRoad; sessionRoad] (120596 # 1000, 16412 # 1000)
       = {| nearest := nearestName f; limit := nearestLimit f; minDist := Fin m |} /\
     forall g d, g ∈ before ->
       tryDistance sampleLineString samplePointToLineDistance
         (120596 # 1000, 16412 # 1000) g = Some d ->
       num_lt (Fin m) d) /\
  sampleScan [brokenRoad] (120596 # 1000, 16412 # 1000) = scanStart.
Proof.
  split; [|split].
  - destruct (scanRoads_first_nearest sampleLineString samplePointToLineDistance
                [brokenRoad; kennonRoad; sessionRoad] (120596 # 1000, 16412 # 1000))
      as (H & _).
    eexists. split; [vm_compute; reflexivity|].
    refine (H kennonRoad _ _ _).
    + apply list_elem_of_further, list_elem_of_here.
    + vm_compute. reflexivity.
  - destruct (scanRoads_first_nearest sampleLineString samplePointToLineDistance
                [brokenRoad; kennonRoad; sessionRoad] (120596 # 1000, 16412 # 1000))
      as (_ & H & _).
    apply H. exists sessionRoad. eexists. split.
    + apply list_elem_of_further, list_elem_of_further, list_elem_of_here.
    + vm_compute. reflexivity.
  - destruct (scanRoads_first_nearest sampleLineString samplePointToLineDistance
                [brokenRoad] (120596 # 1000, 16412 # 1000))
      as (_ & _ & H).
    apply H. intros r q ->%list_elem_of_singleton. discriminate.
Defined.

Example scan_finds_sessionRoad :
  nearest (sampleScan [brokenRoad; kennonRoad; sessionRoad] (120596 # 1000, 16412 # 1000))
  = Some "Session Road"%string.
Proof. vm_compute. reflexivity. Qed.

(** ** The position callback *)

Section CallbackFacts.

Variable turfLineString : list Position -> option RoadFeature.
Variable pointToLineDistance : Position -> RoadFeature -> option Num.
Variable roadFeatures : list RoadFeature.

Local Abbreviation scanAt coords :=
  (scanRoads turfLineString pointToLineDistance roadFeatures
     (Coords.longitude coords, Coords.latitude coords)).
Local Abbreviation callback := (watchCallback turfLineString pointToLineDistance roadFeatures).
Local Abbreviation callbackWith := (onPosition turfLineString pointToLineDistance roadFeatures).

Lemma onRoad_true (s : Scan) :
  onRoad s = true <->
  exists n, nearest s = Some n /\ isEmpty n = false /\ num_le (minDist s) (Fin 30).
Proof.
  unfold onRoad. split.
  - destruct (nearest s) as [n|]; [|discriminate].
    intros [Hn Hd]%andb_true_iff. exists n.
    apply negb_true_iff in Hn. apply num_leb_le in Hd. auto.
  - intros (n & -> & Hn & Hd). rewrite Hn. simpl. apply num_leb_le, Hd.
Qed.

Lemma onPosition_off_road (v : Q) (st : State) (coords : Coords.t) (now : Z) :
  onRoad (scanAt coords) = false ->
  callbackWith v st coords now = (recordFix coords st, []).
Proof.
  unfold onPosition, onRoad. intros H.
  destruct (nearest _); [rewrite H|]; reflexivity.
Qed.

Lemma onPosition_cooling (v : Q) (st : State) (coords : Coords.t) (now : Z) (n : string) :
  onRoad (scanAt coords) = true ->
  nearest (scanAt coords) = Some n ->
  (now - lastSpokenRef st <= 7000)%Z ->
  callbackWith v st coords now = (setCurrentRoad (Some n) (recordFix coords st), []).
Proof.
  unfold onPosition, onRoad. intros H Hn Hnow.
  rewrite Hn in *. rewrite H. simpl.
  destruct (Z.gtb_spec (now - lastSpokenRef st) 7000); [lia|reflexivity].
Qed.

Lemma onPosition_speaking (v : Q) (st : State) (coords : Coords.t) (now : Z) (n : string) :
  onRoad (scanAt coords) = true ->
  nearest (scanAt coords) = Some n ->
  (now - lastSpokenRef st > 7000)%Z ->
  callbackWith v st coords now
  = (setLastSpoken now (setCurrentRoad (Some n) (recordFix coords st)),
     speak (if exceedsLimit v (limit (scanAt coords))
            then overspeedText n (limit (scanAt coords))
            else normalText n (limit (scanAt coords)))).
Proof.
  unfold onPosition, onRoad. intros H Hn Hnow.
  rewrite Hn in *. rewrite H. simpl.
  destruct (Z.gtb_spec (now - lastSpokenRef st) 7000); [reflexivity|lia].
Qed.

(** With the speed its closure holds, the callback words its advisory by
    comparing the limit with the speed of the first render, 0; the speed
    of the fix plays no part. *)
Lemma watchCallback_wording (st : State) (coords : Coords.t) (now : Z) (n : string) :
  onRoad (scanAt coords) = true ->
  nearest (scanAt coords) = Some n ->
  (now - lastSpokenRef st > 7000)%Z ->
  spoken (snd (callback st coords now))
  = [if exceedsLimit 0 (limit (scanAt coords))
     then overspeedText n (limit (scanAt coords))
     else normalText n (limit (scanAt coords))].
Proof.
  intros H Hn Hnow. unfold watchCallback.
  rewrite (onPosition_speaking _ st coords now n H Hn Hnow).
  destruct (exceedsLimit _ _); reflexivity.
Qed.

End CallbackFacts.

(** C1, where the code departs from it. A fix on Session Road (limit 20)
    at 20 m/s, which is 72 km/h and above 20 + 3, with the cooldown over:
    the speed readout becomes 72, and the callback speaks the normal
    wording, not the overspeed one. *)
Theorem overspeed_fix_gets_normal_wording :
  onRoad (sampleScan [sessionRoad] (120596 # 1000, 16412 # 1000)) = true /\
  limit (sampleScan [sessionRoad] (120596 # 1000, 16412 # 1000)) = Number 20 /\
  (1700000000000 - lastSpokenRef initialState > 7000)%Z /\
  20 + 3 < userSpeed (fst (sampleCallback [sessionRoad] initialState fastOnSession
                             1700000000000)) /\
  spoken (snd (sampleCallback [sessionRoad] initialState fastOnSession 1700000000000))
  = [normalText "Session Road" (Number 20)].
Proof.
  repeat split; reflexivity.
Qed.

(** ** The cooldown *)

Section CooldownFacts.

Variable turfLineString : list Position -> option RoadFeature.
Variable pointToLineDistance : Position -> RoadFeature -> option Num.
Variable roadFeatures : list RoadFeature.

Local Abbreviation scanAt coords :=
  (scanRoads turfLineString pointToLineDistance roadFeatures
     (Coords.longitude coords, Coords.latitude coords)).
Local Abbreviation callback := (watchCallback turfLineString pointToLineDistance roadFeatures).
Local Abbreviation stateAfter := (watchState turfLineString pointToLineDistance roadFeatures).
Local Abbreviation advisories := (announcements turfLineString pointToLineDistance roadFeatures).

Lemma callback_silent (st : State) (coords : Coords.t) (now : Z) :
  (now - lastSpokenRef st <= 7000)%Z ->
  spoken (snd (callback st coords now)) = [] /\
  lastSpokenRef (fst (callback st coords now)) = lastSpokenRef st.
Proof.
  intros Hnow. unfold watchCallback.
  destruct (onRoad (scanAt coords)) eqn:Hon.
  - destruct (proj1 (onRoad_true _) Hon) as (n & Hn & _).
    rewrite (onPosition_cooling _ _ _ _ st coords now n Hon Hn Hnow). auto.
  - rewrite (onPosition_off_road _ _ _ _ st coords now Hon). auto.
Qed.

Lemma callback_fires (st : State) (coords : Coords.t) (now : Z) :
  onRoad (scanAt coords) = true ->
  (now - lastSpokenRef st > 7000)%Z ->
  (exists text, spoken (snd (callback st coords now)) = [text]) /\
  lastSpokenRef (fst (callback st coords now)) = now.
Proof.
  intros Hon Hnow. unfold watchCallback.
  destruct (proj1 (onRoad_true _) Hon) as (n & Hn & _).
  rewrite (onPosition_speaking _ _ _ _ st coords now n Hon Hn Hnow).
  split; [|reflexivity]. destruct (exceedsLimit _ _); eexists; reflexivity.
Qed.

Lemma callback_step (st : State) (coords : Coords.t) (now : Z) :
  (spoken (snd (callback st coords now)) = [] /\
   lastSpokenRef (fst (callback st coords now)) = lastSpokenRef st) \/
  (exists text, spoken (snd (callback st coords now)) = [text] /\
   (now - lastSpokenRef st > 7000)%Z /\
   lastSpokenRef (fst (callback st coords now)) = now).
Proof.
  destruct (Z_le_gt_dec (now - lastSpokenRef st) 7000) as [Hle|Hgt].
  - left. apply callback_silent, Hle.
  - destruct (onRoad (scanAt coords)) eqn:Hon.
    + right. destruct (callback_fires st coords now Hon Hgt) as [[text Ht] Hl].
      exists text. auto.
    + left. unfold watchCallback.
      rewrite (onPosition_off_road _ _ _ _ st coords now Hon). auto.
Qed.

Lemma announcements_spaced (fixes : list (Coords.t * Z)) (st : State) :
  spaced (lastSpokenRef st) (advisories st fixes).
Proof.
  revert st. induction fixes as [|[coords now] rest IH]; intros st; simpl.
  - exact I.
  - destruct (callback_step st coords now) as [[Hs Hl] | (text & Hs & Hgt & Hl)];
      rewrite Hs; simpl.
    + rewrite <- Hl. apply IH.
    + split; [exact Hgt|]. specialize (IH (fst (callback st coords now))).
      rewrite Hl in IH. exact IH.
Qed.

(** C4. Over any sequence of fixes from any state, every advisory comes
    more than 7000 ms after the timestamp recorded by the one before it
    (for the first: after the timestamp the state starts with). At each
    fix of the sequence: while at most 7000 ms have passed since the
    recorded timestamp, nothing is spoken and the timestamp stays,
    whichever road is matched; with a road matched within 30 m and more
    than 7000 ms passed, one advisory is spoken and the timestamp becomes
    the clock reading of that fix. *)
Theorem cooldown_between_announcements (st : State) (fixes : list (Coords.t * Z)) :
  spaced (lastSpokenRef st) (advisories st fixes) /\
  forall before coords now after,
    fixes = before ++ (coords, now) :: after ->
    ((now - lastSpokenRef (stateAfter st before) <= 7000)%Z ->
     spoken (snd (callback (stateAfter st before) coords now)) = [] /\
     lastSpokenRef (fst (callback (stateAfter st before) coords now))
     = lastSpokenRef (stateAfter st before)) /\
    (onRoad (scanAt coords) = true ->
     (now - lastSpokenRef (stateAfter st before) > 7000)%Z ->
     (exists text, spoken (snd (callback (stateAfter st before) coords now)) = [text]) /\
     lastSpokenRef (fst (callback (stateAfter st before) coords now)) = now).
Proof.
  split; [apply announcements_spaced|].
  intros before coords now after _. split.
  - apply callback_silent.
  - apply callback_fires.
Qed.

End CooldownFacts.

(** Three fixes on Session Road, the second 7000 ms and the third 7001 ms
    after the first: the second is silent, the third speaks. *)
Lemma cooldown_between_announcements_witness :
  (spoken (snd (sampleCallback [sessionRoad]
                  (watchState sampleLineString samplePointToLineDistance [sessionRoad]
                     initialState [(fastOnSession, 10000%Z)])
                  fastOnSession 17000)) = [] /\
   lastSpokenRef (fst (sampleCallback [sessionRoad]
                  (watchState sampleLineString samplePointToLineDistance [sessionRoad]
                     initialState [(fastOnSession, 10000%Z)])
                  fastOnSession 17000)) = 10000%Z) /\
  ((exists text,
      spoken (snd (sampleCallback [sessionRoad]
                     (watchState sampleLineString samplePointToLineDistance [sessionRoad]
                        initialState [(fastOnSession, 10000%Z); (fastOnSession, 17000%Z)])
                     fastOnSession 17001)) = [text]) /\
   lastSpokenRef (fst (sampleCallback [sessionRoad]
                     (watchState sampleLineString samplePointToLineDistance [sessionRoad]
                        initialState [(fastOnSession, 10000%Z); (fastOnSession, 17000%Z)])
                     fastOnSession 17001)) = 17001%Z).
Proof.
  destruct (cooldown_between_announcements sampleLineString samplePointToLineDistance
              [sessionRoad] initialState
              [(fastOnSession, 10000%Z); (fastOnSession, 17000%Z); (fastOnSession, 17001%Z)])
    as [_ H].
  split.
  - destruct (H [(fastOnSession, 10000%Z)] fastOnSession 17000%Z
                [(fastOnSession, 17001%Z)] eq_refl) as [Hsilent _].
    apply Hsilent. vm_compute. discriminate.
  - destruct (H [(fastOnSession, 10000%Z); (fastOnSession, 17000%Z)] fastOnSession
                17001%Z [] eq_refl) as [_ Hfire].
    apply Hfire.
    + reflexivity.
    + vm_compute. reflexivity.
Defined.

Example announcements_of_three_fixes :
  map fst (announcements sampleLineString samplePointToLineDistance [sessionRoad]
             initialState
             [(fastOnSession, 10000%Z); (fastOnSession, 17000%Z); (fastOnSession, 17001%Z)])
  = [10000%Z; 17001%Z].
Proof. vm_compute. reflexivity. Qed.

(** ** A fix off every road *)

Section OffRoadFacts.

Variable turfLineString : list Position -> option RoadFeature.
Variable pointToLineDistance : Position -> RoadFeature -> option Num.
Variable roadFeatures : list RoadFeature.

Local Abbreviation distanceOf := (tryDistance turfLineString pointToLineDistance).
Local Abbreviation scanAt coords :=
  (scanRoads turfLineString pointToLineDistance roadFeatures
     (Coords.longitude coords, Coords.latitude coords)).
Local Abbreviation callback := (watchCallback turfLineString pointToLineDistance roadFeatures).

(** The callback's test fails when every feature whose distance can be
    computed is farther than 30 m. *)
Lemma far_from_every_road (coords : Coords.t) :
  (forall road d, road ∈ roadFeatures ->
     distanceOf (Coords.longitude coords, Coords.latitude coords) road = Some d ->
     num_lt (Fin 30) d) ->
  onRoad (scanAt coords) = false.
Proof.
  intros Hfar. destruct (onRoad (scanAt coords)) eqn:Hon; [|reflexivity].
  destruct (proj1 (onRoad_true _) Hon) as (n & Hn & _ & Hd).
  destruct (scanRoads_scanned turfLineString pointToLineDistance
              (Coords.longitude coords, Coords.latitude coords) roadFeatures)
    as [_ [[Hs _] | (before & f & after & m & Hl & Hf & Hs & _)]].
  - rewrite Hs in Hn. discriminate.
  - rewrite Hs in Hd. simpl in Hd.
    assert (Hin : f ∈ roadFeatures).
    { rewrite Hl. apply elem_of_app. right. apply list_elem_of_here. }
    pose proof (Hfar f (Fin m) Hin Hf) as Hlt. simpl in Hlt. lra.
Qed.

(** C9, as the code has it. On a fix for which the callback's test
    [nearest && minDist <= 30] fails, nothing is spoken or otherwise done
    outside; the current road, the timestamp of the last advisory, the
    search text, the suggestions and the route with its legend stay as
    they were. Three things are updated: the speed readout, to the fix's
    speed (0 when it has none) times 3.6; the centre of the map region and
    the last known location, both to the fix's coordinates. *)
Theorem off_road_fix_frame (st : State) (coords : Coords.t) (now : Z) :
  onRoad (scanAt coords) = false ->
  snd (callback st coords now) = [] /\
  currentRoad (fst (callback st coords now)) = currentRoad st /\
  lastSpokenRef (fst (callback st coords now)) = lastSpokenRef st /\
  searchText (fst (callback st coords now)) = searchText st /\
  suggestions (fst (callback st coords now)) = suggestions st /\
  showLegend (fst (callback st coords now)) = showLegend st /\
  routeCoords (fst (callback st coords now)) = routeCoords st /\
  routeRoads (fst (callback st coords now)) = routeRoads st /\
  userSpeed (fst (callback st coords now)) = default 0 (Coords.speed coords) * (36 # 10) /\
  region (fst (callback st coords now))
  = {| Region.latitude := Coords.latitude coords;
       Region.longitude := Coords.longitude coords;
       Region.latitudeDelta := Region.latitudeDelta (region st);
       Region.longitudeDelta := Region.longitudeDelta (region st) |} /\
  userLocationRef (fst (callback st coords now))
  = Some {| UserLoc.lat := Coords.latitude coords; UserLoc.lon := Coords.longitude coords |}.
Proof.
  intros Hoff. unfold watchCallback.
  rewrite (onPosition_off_road _ _ _ _ st coords now Hoff).
  repeat split; reflexivity.
Qed.

End OffRoadFacts.

(** C9, the claim as written fails: a fix off every road changes more than
    the speed readout; the map region and the last known location move to
    the fix. *)
Lemma off_road_fix_moves_region_and_location :
  onRoad (sampleScan [sessionRoad] (122, 18)) = false /\
  fst (sampleCallback [sessionRoad] initialState farAway 10000)
  <> setUserSpeed (default 0 (Coords.speed farAway) * (36 # 10)) initialState.
Proof.
  split; [reflexivity|].
  intros H. apply (f_equal userLocationRef) in H. discriminate H.
Qed.

Lemma off_road_fix_frame_witness :
  snd (sampleCallback [sessionRoad] initialState farAway 10000) = [] /\
  currentRoad (fst (sampleCallback [sessionRoad] initialState farAway 10000)) = None /\
  userSpeed (fst (sampleCallback [sessionRoad] initialState farAway 10000)) = 10 * (36 # 10).
Proof.
  destruct (off_road_fix_frame sampleLineString samplePointToLineDistance [sessionRoad]
              initialState farAway 10000%Z)
    as (H1 & H2 & _ & _ & _ & _ & _ & _ & H3 & _).
  - reflexivity.
  - auto.
Defined.

(** ** Strings *)

Lemma trimStart_blank (s : string) : blank s = true -> trimStart s = EmptyString.
Proof.
  induction s as [|c s IH]; simpl; [reflexivity|].
  intros [Hc Hs]%andb_true_iff. rewrite Hc. auto.
Qed.

Lemma blank_trimStart (s : string) : blank (trimStart s) = true -> blank s = true.
Proof.
  induction s as [|c s IH]; simpl; [reflexivity|].
  destruct (isWhiteSpace c) eqn:Hc; simpl.
  - exact IH.
  - rewrite Hc. simpl. discriminate.
Qed.

Lemma trimEnd_empty (s : string) : trimEnd s = EmptyString -> blank s = true.
Proof.
  induction s as [|c s IH]; simpl; [reflexivity|].
  destruct (trimEnd s); simpl.
  - destruct (isWhiteSpace c); [auto|discriminate].
  - discriminate.
Qed.

Lemma isEmpty_true (s : string) : isEmpty s = true <-> s = EmptyString.
Proof. destruct s; simpl; split; congruence. Qed.

(** [!s.trim()] holds of the blank strings and of no others. *)
Lemma trim_blank (s : string) : isEmpty (trim s) = true <-> blank s = true.
Proof.
  unfold trim. split.
  - intros H%isEmpty_true. apply blank_trimStart, trimEnd_empty, H.
  - intros H. rewrite (trimStart_blank s H). reflexivity.
Qed.

Lemma startsWith_spec (s t : string) :
  startsWith s t = true <-> exists post, s = t +:+ post.
Proof.
  revert s. induction t as [|b t IH]; intros s; simpl.
  - split; [exists s; reflexivity | reflexivity].
  - destruct s as [|a s].
    + split; [discriminate | intros [post H]; discriminate].
    + destruct (Ascii.eqb_spec a b) as [->|Hne].
      * rewrite IH. split; intros [post H]; exists post.
        -- rewrite H. reflexivity.
        -- injection H as H. exact H.
      * split; [discriminate | intros [post H]; injection H as H _; congruence].
Qed.

Lemma includes_spec (s t : string) :
  includes s t = true <-> exists pre post, s = pre +:+ t +:+ post.
Proof.
  induction s as [|a s IH].
  - simpl. rewrite orb_false_r, startsWith_spec. split.
    + intros [post H]. exists EmptyString, post. exact H.
    + intros (pre & post & H). destruct pre; [exists post; exact H|discriminate].
  - cbn [includes]. rewrite orb_true_iff, IH, startsWith_spec. split.
    + intros [[post H] | (pre & post & H)].
      * exists EmptyString, post. exact H.
      * exists (String a pre), post. rewrite H. reflexivity.
    + intros (pre & post & H). destruct pre as [|a' pre].
      * left. exists post. exact H.
      * right. exists pre, post. injection H as _ H. exact H.
Qed.

Lemma nameIncludes_spec (text : string) (r : RoadFeature) :
  nameIncludes text r = true <->
  exists n, propName r = Some n /\ containsIgnoringCase n text.
Proof.
  unfold nameIncludes, containsIgnoringCase. destruct (propName r) as [n|].
  - rewrite includes_spec. split.
    + intros H. exists n. auto.
    + intros (n' & Hn & H). injection Hn as <-. exact H.
  - split; [discriminate | intros (n' & Hn & _); discriminate].
Qed.

(** ** The suggestions *)

Section SuggestFacts.

Variable roadFeatures : list RoadFeature.

Local Abbreviation suggest st text :=
  (suggestions (handleSearchChange roadFeatures st text)).

(** C8, as the code has it. A blank text, empty or of white space only,
    yields no suggestion. Any other text yields the first five, or all
    when there are fewer, of the features whose name contains the text,
    letter case apart, in the order of the index. *)
Theorem suggestions_of_text (st : State) (text : string) :
  (blank text = true -> suggest st text = []) /\
  (blank text = false ->
   (length (suggest st text) <= 5)%nat /\
   suggest st text `sublist_of` roadFeatures /\
   (forall r, r ∈ suggest st text ->
      exists n, propName r = Some n /\ containsIgnoringCase n text) /\
   exists rest,
     List.filter (nameIncludes text) roadFeatures = suggest st text ++ rest /\
     ((length (suggest st text) < 5)%nat -> rest = []) /\
     forall r, r ∈ roadFeatures ->
       (exists n, propName r = Some n /\ containsIgnoringCase n text) ->
       r ∈ suggest st text ++ rest).
Proof.
  unfold handleSearchChange. split.
  - intros Hb. apply trim_blank in Hb. rewrite Hb. reflexivity.
  - intros Hb. destruct (isEmpty (trim text)) eqn:He.
    { apply trim_blank in He. congruence. }
    simpl. set (all := List.filter (nameIncludes text) roadFeatures).
    split; [|split; [|split]].
    + rewrite length_take. lia.
    + transitivity all; [apply sublist_take|].
      unfold all. clear. induction roadFeatures as [|r l IH]; simpl.
      * constructor.
      * destruct (nameIncludes text r); [apply sublist_skip | apply sublist_cons]; exact IH.
    + intros r Hr. apply nameIncludes_spec.
      assert (Hall : r ∈ all).
      { apply elem_of_take in Hr as (i & Hi & _). eapply list_elem_of_lookup_2, Hi. }
      apply list_elem_of_In, filter_In in Hall. tauto.
    + exists (drop 5 all). split; [symmetry; apply take_drop|]. split.
      * rewrite length_take. intros Hlt. apply drop_ge. lia.
      * intros r Hr Hm. rewrite take_drop. apply list_elem_of_In, filter_In.
        split; [apply list_elem_of_In, Hr | apply nameIncludes_spec, Hm].
Qed.

End SuggestFacts.

(** C8, the claim as written fails: "Session Road" contains the text of
    one space, and that text yields no suggestion. *)
Lemma space_text_yields_no_suggestion :
  containsIgnoringCase "Session Road" " " /\
  suggestions (handleSearchChange [sessionRoad] initialState " ") = [].
Proof.
  split; [|reflexivity].
  exists "session"%string, "road"%string. reflexivity.
Qed.

Lemma suggestions_of_text_witness :
  suggestions (handleSearchChange [kennonRoad; sessionRoad] initialState "  ") = [] /\
  (length (suggestions (handleSearchChange [kennonRoad; sessionRoad] initialState "ROAD"))
   <= 5)%nat.
Proof.
  destruct (suggestions_of_text [kennonRoad; sessionRoad] initialState "  ") as [H1 _].
  destruct (suggestions_of_text [kennonRoad; sessionRoad] initialState "ROAD") as [_ H2].
  split.
  - apply H1. reflexivity.
  - apply H2. reflexivity.
Defined.

Example suggestions_ignore_case :
  suggestions (handleSearchChange [kennonRoad; brokenRoad; sessionRoad] initialState "sIoN r")
  = [sessionRoad].
Proof. reflexivity. Qed.

(** ** The route search: the ways it stops early *)

Section SearchFacts.

Variable pointToLineDistance : Position -> RoadFeature -> option Num.
Variable roadFeatures : list RoadFeature.

Local Abbreviation search := (handleSearch pointToLineDistance roadFeatures).
Local Abbreviation matching := (matchRoads pointToLineDistance roadFeatures).

(** C10. On a query that is empty or of white space only, [handleSearch]
    returns at once: whatever the geocoder and the router would answer,
    the state is the one before and there is no effect at all, so no
    request and no alert. *)
Theorem blank_query_does_nothing (st : State) (query : string)
    (geoRes : Response (option (list Candidate.t)))
    (routeRes : Response (option (list Route.t))) :
  blank query = true ->
  search st query geoRes routeRes = (st, []).
Proof.
  intros Hb. unfold handleSearch.
  rewrite (proj2 (trim_blank query) Hb). reflexivity.
Qed.

Lemma search_not_blank (query : string) :
  blank query = false -> isEmpty (trim query) = false.
Proof.
  intros Hb. destruct (isEmpty (trim query)) eqn:He; [|reflexivity].
  apply trim_blank in He. congruence.
Qed.

(** C7, as the code has it. For a query that is not blank:
    when the geocoder answers with no candidate, the search stops on the
    alert "Not found"; when it answers with a candidate and no fix has
    been received, the search stops on the alert "User location not yet
    detected" without asking the router; when there is a candidate and a
    fix and the router answers with no route, the search stops on the
    alert "Routing failed". Each time the state, and so the route and the
    matched roads, is the one before. *)
Theorem search_failures (st : State) (query : string)
    (geoRes : Response (option (list Candidate.t)))
    (routeRes : Response (option (list Route.t))) :
  blank query = false ->
  (geoRes = Resolved None \/ geoRes = Resolved (Some []) ->
   search st query geoRes routeRes
   = (st, [FetchGeocode (query +:+ ", Baguio City, Philippines");
           AlertAlert "Not found" "Could not find that location."])) /\
  (forall dest rest,
     geoRes = Resolved (Some (dest :: rest)) ->
     userLocationRef st = None ->
     search st query geoRes routeRes
     = (st, [FetchGeocode (query +:+ ", Baguio City, Philippines");
             AlertAlert "Error" "User location not yet detected."])) /\
  (forall dest rest userLoc,
     geoRes = Resolved (Some (dest :: rest)) ->
     userLocationRef st = Some userLoc ->
     routeRes = Resolved None \/ routeRes = Resolved (Some []) ->
     search st query geoRes routeRes
     = (st, [FetchGeocode (query +:+ ", Baguio City, Philippines");
             FetchRoute userLoc (Candidate.lon dest) (Candidate.lat dest);
             AlertAlert "Routing failed" "No route found."])).
Proof.
  intros Hb. pose proof (search_not_blank query Hb) as He.
  unfold handleSearch. rewrite He. repeat split.
  - intros [-> | ->]; reflexivity.
  - intros dest rest -> ->. reflexivity.
  - intros dest rest userLoc -> -> [-> | ->]; reflexivity.
Qed.

Lemma matchCoords_throws (road : RoadFeature) (coords : list Position)
    (matched : list RouteRoad.t) :
  matchCoords pointToLineDistance road coords matched = None <->
  exists c, c ∈ coords /\ pointToLineDistance c road = None.
Proof.
  revert matched. induction coords as [|c rest IH]; intros matched; simpl.
  - split; [discriminate | intros (c & Hc & _); inversion Hc].
  - destruct (pointToLineDistance c road) as [d|] eqn:Hd.
    + rewrite IH. split; intros (c' & Hc & Hnone).
      * exists c'. split; [apply list_elem_of_further, Hc | exact Hnone].
      * apply elem_of_cons in Hc as [-> | Hc]; [congruence|eauto].
    + split; [|reflexivity]. intros _. exists c. split; [apply list_elem_of_here | exact Hd].
Qed.

Lemma matchRoadsFrom_throws (roads : list RoadFeature) (coords : list Position)
    (matched : list RouteRoad.t) :
  matchRoadsFrom pointToLineDistance roads coords matched = None <->
  exists road c, road ∈ roads /\ c ∈ coords /\ pointToLineDistance c road = None.
Proof.
  revert matched. induction roads as [|r rest IH]; intros matched; simpl.
  - split; [discriminate | intros (r & c & Hr & _); inversion Hr].
  - destruct (matchCoords pointToLineDistance r coords matched) as [m1|] eqn:Hm.
    + rewrite IH. split; intros (r' & c & Hr & Hc & Hnone).
      * exists r', c. split; [apply list_elem_of_further, Hr | auto].
      * apply elem_of_cons in Hr as [-> | Hr]; [|eauto].
        assert (Hthrow : matchCoords pointToLineDistance r coords matched = None)
          by (apply matchCoords_throws; eauto).
        congruence.
    + split; [|reflexivity]. intros _.
      apply matchCoords_throws in Hm as (c & Hc & Hnone).
      exists r, c. split; [apply list_elem_of_here | auto].
Qed.

(** One feature whose distance cannot be computed, at one coordinate of
    the route, ends the whole route matching: the search lands in its
    [catch], with the route drawn and the matched roads those of before. *)
Lemma search_aborts_on_throwing_feature (st : State) (query : string)
    (dest : Candidate.t) (cands : list Candidate.t) (userLoc : UserLoc.t)
    (route : Route.t) (routes : list Route.t) (line : list Position)
    (road : RoadFeature) (c : Position) :
  blank query = false ->
  userLocationRef st = Some userLoc ->
  Route.coordinates route = Some line ->
  road ∈ roadFeatures -> c ∈ line -> pointToLineDistance c road = None ->
  alerts (snd (search st query (Resolved (Some (dest :: cands)))
                 (Resolved (Some (route :: routes)))))
  = [("Error"%string, "Failed to find route."%string)] /\
  routeRoads (fst (search st query (Resolved (Some (dest :: cands)))
                     (Resolved (Some (route :: routes)))))
  = routeRoads st.
Proof.
  intros Hb Hloc Hline Hroad Hc Hnone.
  pose proof (search_not_blank query Hb) as He.
  assert (Hm : matching line = None).
  { apply matchRoadsFrom_throws. eauto. }
  unfold handleSearch. rewrite He, Hloc, Hline, Hm. split; reflexivity.
Qed.

End SearchFacts.

Lemma blank_query_does_nothing_witness :
  sampleSearch [kennonRoad] locatedState "   " oneCandidate routeOnKennon
  = (locatedState, []).
Proof.
  apply (blank_query_does_nothing samplePointToLineDistance [kennonRoad]).
  reflexivity.
Defined.

(** C7, the claim as written fails: with no fix received and a geocoder
    that finds nothing, the failure shown is "Not found", not the missing
    location. *)
Lemma no_fix_and_no_candidate_is_not_found :
  userLocationRef initialState = None /\
  alerts (snd (sampleSearch [kennonRoad] initialState "Burnham Park"
                 (Resolved (Some [])) routeOnKennon))
  = [("Not found"%string, "Could not find that location."%string)].
Proof. split; reflexivity. Qed.

Lemma search_failures_witness :
  sampleSearch [kennonRoad] locatedState "Burnham Park" (Resolved (Some [])) routeOnKennon
  = (locatedState,
     [FetchGeocode "Burnham Park, Baguio City, Philippines";
      AlertAlert "Not found" "Could not find that location."]) /\
  sampleSearch [kennonRoad] initialState "Burnham Park" oneCandidate routeOnKennon
  = (initialState,
     [FetchGeocode "Burnham Park, Baguio City, Philippines";
      AlertAlert "Error" "User location not yet detected."]) /\
  sampleSearch [kennonRoad] locatedState "Burnham Park" oneCandidate (Resolved (Some []))
  = (locatedState,
     [FetchGeocode "Burnham Park, Baguio City, Philippines";
      FetchRoute {| UserLoc.lat := 16412 # 1000; UserLoc.lon := 120596 # 1000 |}
        (1206 # 10) (164 # 10);
      AlertAlert "Routing failed" "No route found."]).
Proof.
  split; [|split].
  - destruct (search_failures samplePointToLineDistance [kennonRoad] locatedState
                "Burnham Park" (Resolved (Some [])) routeOnKennon eq_refl) as (H & _).
    exact (H (or_intror eq_refl)).
  - destruct (search_failures samplePointToLineDistance [kennonRoad] initialState
                "Burnham Park" oneCandidate routeOnKennon eq_refl) as (_ & H & _).
    exact (H _ _ eq_refl eq_refl).
  - destruct (search_failures samplePointToLineDistance [kennonRoad] locatedState
                "Burnham Park" oneCandidate (Resolved (Some [])) eq_refl) as (_ & _ & H).
    exact (H _ _ _ eq_refl eq_refl (or_intror eq_refl)).
Defined.

(** C6, where the code departs from it. The index holds a feature without
    geometry and Kennon Road; the route passes on Kennon Road. The route
    matching stops at the broken feature: the search ends on the alert
    "Failed to find route" and Kennon Road is not matched. Without the
    broken feature the same search matches Kennon Road, and the position
    scan over the same index passes over the broken feature and finds
    Kennon Road. *)
Theorem broken_feature_aborts_route_matching :
  alerts (snd (sampleSearch [brokenRoad; kennonRoad] locatedState "Kennon Road"
                 oneCandidate routeOnKennon))
  = [("Error"%string, "Failed to find route."%string)] /\
  routeRoads (fst (sampleSearch [brokenRoad; kennonRoad] locatedState "Kennon Road"
                     oneCandidate routeOnKennon)) = [] /\
  routeRoads (fst (sampleSearch [kennonRoad] locatedState "Kennon Road"
                     oneCandidate routeOnKennon)) = [routeRoadOf kennonRoad] /\
  nearest (sampleScan [brokenRoad; kennonRoad] (1206 # 10, 164 # 10))
  = Some "Kennon Road"%string.
Proof. repeat split; vm_compute; reflexivity. Qed.

(** ** The route search: the matched roads *)

Lemma getColorForSpeed_classes (l : Q) :
  (l <= 20 -> getColorForSpeed (Number l) = "rgba(255,255,0,0.9)"%string) /\
  (20 < l -> l <= 30 -> getColorForSpeed (Number l) = "rgba(255,165,0,0.9)"%string) /\
  (30 < l -> l <= 40 -> getColorForSpeed (Number l) = "rgba(255,0,0,0.9)"%string) /\
  (40 < l -> getColorForSpeed (Number l) = "rgba(0,128,0,0.9)"%string).
Proof.
  unfold getColorForSpeed, value_leb.
  destruct (Qle_bool l 20) eqn:H20; [apply Qle_bool_iff in H20 | apply Qle_bool_gt in H20];
  destruct (Qle_bool l 30) eqn:H30; [apply Qle_bool_iff in H30 | apply Qle_bool_gt in H30
                                    |apply Qle_bool_iff in H30 | apply Qle_bool_gt in H30];
  destruct (Qle_bool l 40) eqn:H40;
    [apply Qle_bool_iff in H40 | apply Qle_bool_gt in H40
    |apply Qle_bool_iff in H40 | apply Qle_bool_gt in H40
    |apply Qle_bool_iff in H40 | apply Qle_bool_gt in H40
    |apply Qle_bool_iff in H40 | apply Qle_bool_gt in H40];
  repeat split; intros; try reflexivity; lra.
Qed.

(** A limit that is not a number fails the three comparisons: green. *)
Lemma getColorForSpeed_inherited (key : string) :
  getColorForSpeed (Inherited key) = "rgba(0,128,0,0.9)"%string.
Proof. reflexivity. Qed.

(** The entry made for a road, from the road's own data: its name, or
    "Unnamed"; its own limit, or what [roadsSpeeds] holds under that name,
    or 30; the colour of that limit. *)
Lemma routeRoadOf_resolved (road : RoadFeature) :
  RouteRoad.name (routeRoadOf road) = default "Unnamed"%string (propName road) /\
  (forall l, propSpeedLimit road = Some l ->
     RouteRoad.speed_limit (routeRoadOf road) = Number l) /\
  (propSpeedLimit road = None ->
   forall v, roadsSpeeds (RouteRoad.name (routeRoadOf road)) = Some v ->
     RouteRoad.speed_limit (routeRoadOf road) = v) /\
  (propSpeedLimit road = None ->
   roadsSpeeds (RouteRoad.name (routeRoadOf road)) = None ->
   RouteRoad.speed_limit (routeRoadOf road) = Number 30) /\
  (forall l, RouteRoad.speed_limit (routeRoadOf road) = Number l ->
     (l <= 20 -> RouteRoad.color (routeRoadOf road) = "rgba(255,255,0,0.9)"%string) /\
     (20 < l -> l <= 30 ->
      RouteRoad.color (routeRoadOf road) = "rgba(255,165,0,0.9)"%string) /\
     (30 < l -> l <= 40 ->
      RouteRoad.color (routeRoadOf road) = "rgba(255,0,0,0.9)"%string) /\
     (40 < l -> RouteRoad.color (routeRoadOf road) = "rgba(0,128,0,0.9)"%string)) /\
  (forall key, RouteRoad.speed_limit (routeRoadOf road) = Inherited key ->
     RouteRoad.color (routeRoadOf road) = "rgba(0,128,0,0.9)"%string).
Proof.
  unfold routeRoadOf, routeLimit, routeName, resolveLimit. simpl.
  split; [reflexivity|]. split; [|split; [|split; [|split]]].
  - intros l ->. reflexivity.
  - intros -> v ->. reflexivity.
  - intros -> ->. reflexivity.
  - intros l ->. apply getColorForSpeed_classes.
  - intros key ->. reflexivity.
Qed.

Section MatchFacts.

Variable pointToLineDistance : Position -> RoadFeature -> option Num.

Local Abbreviation close := (near pointToLineDistance).
Local Abbreviation names m := (RouteRoad.name <$> m).

Lemma existsb_name (n : string) (matched : list RouteRoad.t) :
  existsb (fun m => String.eqb (RouteRoad.name m) n) matched = true <-> n ∈ names matched.
Proof.
  rewrite existsb_exists, list_elem_of_fmap. split.
  - intros (e & He%list_elem_of_In & Hn%String.eqb_eq). eauto.
  - intros (e & -> & He). exists e. split; [apply list_elem_of_In, He|apply String.eqb_refl].
Qed.

Lemma pushRoad_old (road : RoadFeature) (matched : list RouteRoad.t) :
  routeName road ∈ names matched -> pushRoad road matched = matched.
Proof.
  intros H%existsb_name. unfold pushRoad. rewrite H. reflexivity.
Qed.

Lemma pushRoad_new (road : RoadFeature) (matched : list RouteRoad.t) :
  routeName road ∉ names matched -> pushRoad road matched = matched ++ [routeRoadOf road].
Proof.
  intros H. unfold pushRoad.
  destruct (existsb _ matched) eqn:E; [|reflexivity].
  apply existsb_name in E. contradiction.
Qed.

Lemma pushRoad_cases (road : RoadFeature) (matched : list RouteRoad.t) :
  (routeName road ∈ names matched /\ pushRoad road matched = matched) \/
  ((routeName road ∉ names matched) /\ pushRoad road matched = matched ++ [routeRoadOf road]).
Proof.
  destruct (decide (routeName road ∈ names matched)) as [Hin|Hout].
  - left. auto using pushRoad_old.
  - right. auto using pushRoad_new.
Qed.

Lemma pushRoad_names (road : RoadFeature) (matched : list RouteRoad.t) (n : string) :
  n ∈ names (pushRoad road matched) <-> n ∈ names matched \/ n = routeName road.
Proof.
  destruct (pushRoad_cases road matched) as [[Hin ->] | [Hout ->]].
  - split; [auto|]. intros [H | ->]; assumption.
  - rewrite fmap_app, elem_of_app. simpl. rewrite list_elem_of_singleton. reflexivity.
Qed.

Lemma pushRoad_NoDup (road : RoadFeature) (matched : list RouteRoad.t) :
  NoDup (names matched) -> NoDup (names (pushRoad road matched)).
Proof.
  intros Hnd. destruct (pushRoad_cases road matched) as [[Hin ->] | [Hout ->]]; [exact Hnd|].
  rewrite fmap_app. apply NoDup_app. split; [exact Hnd|]. split.
  - intros n Hn Hn'%list_elem_of_singleton. simpl in Hn'. subst n. contradiction.
  - apply NoDup_singleton.
Qed.

Lemma pushRoad_entries (road : RoadFeature) (matched : list RouteRoad.t) (e : RouteRoad.t) :
  e ∈ pushRoad road matched ->
  e ∈ matched \/ ((RouteRoad.name e ∉ names matched) /\ e = routeRoadOf road).
Proof.
  destruct (pushRoad_cases road matched) as [[Hin ->] | [Hout ->]]; [auto|].
  intros [He | ->%list_elem_of_singleton]%elem_of_app; auto.
Qed.

Lemma pushRoad_twice (road : RoadFeature) (matched : list RouteRoad.t) :
  pushRoad road (pushRoad road matched) = pushRoad road matched.
Proof.
  apply pushRoad_old, pushRoad_names. auto.
Qed.

(** The inner loop pushes the road when it is within 30 m of some
    coordinate, and leaves the list as it is otherwise. *)
Lemma matchCoords_result (road : RoadFeature) (coords : list Position)
    (matched matched' : list RouteRoad.t) :
  matchCoords pointToLineDistance road coords matched = Some matched' ->
  (close coords road /\ matched' = pushRoad road matched) \/
  (~ close coords road /\ matched' = matched).
Proof.
  revert matched. induction coords as [|c rest IH]; intros matched; simpl.
  - intros [= <-]. right. split; [|reflexivity].
    intros (c & d & Hc & _). inversion Hc.
  - destruct (pointToLineDistance c road) as [d|] eqn:Hd; [|discriminate].
    intros Hrest. apply IH in Hrest as [[Hnear ->] | [Hfar ->]].
    + left. split.
      * destruct Hnear as (c' & d' & Hc' & H'). exists c', d'.
        split; [apply list_elem_of_further, Hc' | exact H'].
      * destruct (num_leb d (Fin 30)); [apply pushRoad_twice | reflexivity].
    + destruct (num_leb d (Fin 30)) eqn:Hle.
      * left. split; [|reflexivity]. exists c, d.
        split; [apply list_elem_of_here|]. split; [exact Hd | apply num_leb_le, Hle].
      * right. split; [|reflexivity].
        intros (c' & d' & [-> | Hc']%elem_of_cons & Hd' & Hle').
        -- assert (d' = d) by congruence. subst d'.
           apply num_leb_le in Hle'. congruence.
        -- apply Hfar. exists c', d'. auto.
Qed.

(** What the two loops add to [matched]: the names of the roads within
    30 m of the route; no name twice; and for every name the entry of the
    first road of the index that bears it among those within 30 m. *)
Lemma matchRoadsFrom_result (roads : list RoadFeature) (coords : list Position)
    (matched matched' : list RouteRoad.t) :
  matchRoadsFrom pointToLineDistance roads coords matched = Some matched' ->
  (forall n, n ∈ names matched' <->
     n ∈ names matched \/
     exists road, road ∈ roads /\ close coords road /\ routeName road = n) /\
  (NoDup (names matched) -> NoDup (names matched')) /\
  (forall e, e ∈ matched' ->
     e ∈ matched \/
     ((RouteRoad.name e ∉ names matched) /\
      exists before road after,
        roads = before ++ road :: after /\ e = routeRoadOf road /\ close coords road /\
        forall g, g ∈ before -> close coords g -> routeName g <> routeName road)).
Proof.
  revert matched. induction roads as [|r rest IH]; intros matched; simpl.
  - intros [= <-]. repeat split; auto.
    intros [H | (road & Hr & _)]; [exact H | inversion Hr].
  - destruct (matchCoords pointToLineDistance r coords matched) as [m1|] eqn:Hm;
      [|discriminate].
    intros Hrest. destruct (IH m1 Hrest) as (Hnames & Hnd & Hent). clear IH Hrest.
    apply matchCoords_result in Hm.
    assert (Hm1 : forall n, n ∈ names m1 <->
              n ∈ names matched \/ (close coords r /\ routeName r = n)).
    { intros n. destruct Hm as [[Hnear ->] | [Hfar ->]].
      - rewrite pushRoad_names. split; intros [H | H]; auto.
        + destruct H as [_ <-]. auto.
      - split; [auto|]. intros [H | [H _]]; [exact H | contradiction]. }
    split; [|split].
    + intros n. rewrite Hnames, Hm1. split.
      * intros [[H | [Hnear Hn]] | (road & Hr & H)]; auto.
        -- right. exists r. split; [apply list_elem_of_here | auto].
        -- right. exists road. split; [apply list_elem_of_further, Hr | exact H].
      * intros [H | (road & [-> | Hr]%elem_of_cons & Hnear & Hn)]; auto.
        right. exists road. auto.
    + intros H. apply Hnd. destruct Hm as [[_ ->] | [_ ->]]; [apply pushRoad_NoDup|]; exact H.
    + intros e [He | (Hfresh & before & road & after & -> & -> & Hnear & Hfirst)]%Hent.
      * destruct Hm as [[Hnear ->] | [_ ->]]; [|auto].
        apply pushRoad_entries in He as [He | [Hfresh ->]]; [auto|].
        right. split; [exact Hfresh|]. exists [], r, rest. repeat split; auto.
        intros g Hg. inversion Hg.
      * right. split.
        -- intros Hin. apply Hfresh, Hm1. auto.
        -- exists (r :: before), road, after. repeat split; auto.
           intros g [-> | Hg]%elem_of_cons Hg' Heq; [|exact (Hfirst g Hg Hg' Heq)].
           apply Hfresh, Hm1. right. auto.
Qed.

End MatchFacts.

Section RouteFacts.

Variable pointToLineDistance : Position -> RoadFeature -> option Num.
Variable roadFeatures : list RoadFeature.

Local Abbreviation search := (handleSearch pointToLineDistance roadFeatures).
Local Abbreviation matching := (matchRoads pointToLineDistance roadFeatures).
Local Abbreviation close := (near pointToLineDistance).

(** A search that speaks has gone through all its steps: the state holds
    the route that was answered and the roads matched along it. *)
Lemma search_success (st : State) (query : string)
    (geoRes : Response (option (list Candidate.t)))
    (routeRes : Response (option (list Route.t))) :
  spoken (snd (search st query geoRes routeRes)) <> [] ->
  exists route rest line matched,
    routeRes = Resolved (Some (route :: rest)) /\
    Route.coordinates route = Some line /\
    matching line = Some matched /\
    routeRoads (fst (search st query geoRes routeRes)) = matched.
Proof.
  unfold handleSearch. destruct (isEmpty (trim query)); [intros []; reflexivity|].
  destruct geoRes as [|[[|dest cands]|]]; try (intros []; reflexivity).
  destruct (userLocationRef st) as [userLoc|]; [|intros []; reflexivity].
  destruct routeRes as [|[[|route rest]|]]; try (intros []; reflexivity).
  destruct (Route.coordinates route) as [line|] eqn:Hline; [|intros []; reflexivity].
  destruct (matching line) as [matched|] eqn:Hm; [|intros []; reflexivity].
  intros _. exists route, rest, line, matched. rewrite Hline. auto.
Qed.


End RouteFacts.


Example search_on_kennon :
  routeRoads (fst (sampleSearch [sessionRoad; kennonRoad] locatedState
                     "Kennon Road" oneCandidate routeOnKennon))
  = [{| RouteRoad.name := "Kennon Road"; RouteRoad.speed_limit := Number 50;
        RouteRoad.color := "rgba(0,128,0,0.9)" |}].
Proof. vm_compute. reflexivity. Qed.

(** A feature without a name is listed as "Unnamed", at the default 30. *)
Example search_on_nameless :
  routeRoads (fst (sampleSearch [namelessRoad] locatedState "Session Road" oneCandidate
                     routeOnBoth))
  = [{| RouteRoad.name := "Unnamed"; RouteRoad.speed_limit := Number 30;
        RouteRoad.color := "rgba(255,165,0,0.9)" |}].
Proof. vm_compute. reflexivity. Qed.

Example colours_at_the_bounds :
  getColorForSpeed (Number 20) = "rgba(255,255,0,0.9)"%string /\
  getColorForSpeed (Number 30) = "rgba(255,165,0,0.9)"%string /\
  getColorForSpeed (Number 40) = "rgba(255,0,0,0.9)"%string /\
  getColorForSpeed (Number 60) = "rgba(0,128,0,0.9)"%string.
Proof. repeat split; reflexivity. Qed.

(** * Further properties *)

(** ** The scan, from the index to its result *)

Section ScanResultFacts.

Variable turfLineString : list Position -> option RoadFeature.
Variable pointToLineDistance : Position -> RoadFeature -> option Num.

Local Abbreviation distanceOf := (tryDistance turfLineString pointToLineDistance).
Local Abbreviation scanOver := (scanRoads turfLineString pointToLineDistance).
Local Abbreviation turn := (scanRoad turfLineString pointToLineDistance).

Lemma scan_stays_above (p : Position) (m : Q) (l : list RoadFeature) (acc : Scan) :
  (forall g d, g ∈ l -> distanceOf p g = Some d -> num_lt (Fin m) d) ->
  num_lt (Fin m) (minDist acc) ->
  num_lt (Fin m) (minDist (fold_left (turn p) l acc)).
Proof.
  revert acc. induction l as [|x l IH]; intros acc Hl Hacc; simpl; [exact Hacc|].
  apply IH.
  - intros g d Hg. apply Hl, list_elem_of_further, Hg.
  - unfold scanRoad. destruct (distanceOf p x) as [d|] eqn:Hx; [|exact Hacc].
    destruct (num_ltb d (minDist acc)); [|exact Hacc].
    simpl. exact (Hl x d (list_elem_of_here _ _) Hx).
Qed.

Lemma scan_keeps_nearest (p : Position) (l : list RoadFeature) (acc : Scan) :
  (forall g d, g ∈ l -> distanceOf p g = Some d -> num_le (minDist acc) d) ->
  fold_left (turn p) l acc = acc.
Proof.
  induction l as [|x l IH]; intros Hl; simpl; [reflexivity|].
  assert (Hx : turn p acc x = acc).
  { unfold scanRoad. destruct (distanceOf p x) as [d|] eqn:Hx; [|reflexivity].
    rewrite (proj2 (num_ltb_ge d (minDist acc))); [reflexivity|].
    exact (Hl x d (list_elem_of_here _ _) Hx). }
  rewrite Hx. apply IH. intros g d Hg. apply Hl, list_elem_of_further, Hg.
Qed.

Lemma scan_ends_on_first_nearest (p : Position) (before after : list RoadFeature)
    (f : RoadFeature) (m : Q) :
  distanceOf p f = Some (Fin m) ->
  (forall g d, g ∈ before -> distanceOf p g = Some d -> num_lt (Fin m) d) ->
  (forall g d, g ∈ after -> distanceOf p g = Some d -> num_le (Fin m) d) ->
  scanOver (before ++ f :: after) p
  = {| nearest := nearestName f; limit := nearestLimit f; minDist := Fin m |}.
Proof.
  intros Hf Hbefore Hafter. unfold scanRoads. rewrite fold_left_app. cbn [fold_left].
  assert (Habove : num_lt (Fin m) (minDist (fold_left (turn p) before scanStart))).
  { apply scan_stays_above; [exact Hbefore | exact I]. }
  assert (Hturn : turn p (fold_left (turn p) before scanStart) f
                  = {| nearest := nearestName f; limit := nearestLimit f;
                       minDist := Fin m |}).
  { unfold scanRoad at 1. rewrite Hf.
    rewrite (proj2 (num_ltb_lt _ _) Habove). reflexivity. }
  rewrite Hturn. apply scan_keeps_nearest. exact Hafter.
Qed.

(** X1. The index decides the scan: when [f] has a finite distance, every
    feature before it is strictly farther and none after it is nearer, the
    scan ends on the name, the limit and the distance of [f]. *)
Theorem scan_determined (p : Position) (before after : list RoadFeature)
    (f : RoadFeature) (m : Q) :
  distanceOf p f = Some (Fin m) ->
  (forall g d, g ∈ before -> distanceOf p g = Some d -> num_lt (Fin m) d) ->
  (forall g d, g ∈ after -> distanceOf p g = Some d -> num_le (Fin m) d) ->
  scanOver (before ++ f :: after) p
  = {| nearest := nearestName f; limit := nearestLimit f; minDist := Fin m |}.
Proof. exact (scan_ends_on_first_nearest p before after f m). Qed.

(** X2. A nearest feature without a name hides the roads behind it: when
    the feature the scan ends on has no name, or an empty one, the fix is
    taken as off every road, however near the other roads are. *)
Theorem nameless_nearest_hides_roads (p : Position) (before after : list RoadFeature)
    (f : RoadFeature) (m : Q) :
  distanceOf p f = Some (Fin m) ->
  (forall g d, g ∈ before -> distanceOf p g = Some d -> num_lt (Fin m) d) ->
  (forall g d, g ∈ after -> distanceOf p g = Some d -> num_le (Fin m) d) ->
  propName f = None \/ propName f = Some ""%string ->
  onRoad (scanOver (before ++ f :: after) p) = false.
Proof.
  intros Hf Hbefore Hafter Hname.
  rewrite (scan_ends_on_first_nearest p before after f m Hf Hbefore Hafter).
  unfold onRoad, nearestName. simpl.
  destruct Hname as [-> | ->]; reflexivity.
Qed.

(** X3. The least distance the scan finds does not depend on the order of
    the index, nor on repeated features: two indexes with the same
    features give least distances that are below each other. *)
Theorem least_distance_ignores_order (p : Position) (roads roads' : list RoadFeature) :
  (forall f, f ∈ roads <-> f ∈ roads') ->
  num_le (minDist (scanOver roads p)) (minDist (scanOver roads' p)) /\
  num_le (minDist (scanOver roads' p)) (minDist (scanOver roads p)).
Proof.
  assert (Hhalf : forall l l' : list RoadFeature,
            (forall f, f ∈ l' -> f ∈ l) ->
            num_le (minDist (scanOver l p)) (minDist (scanOver l' p))).
  { intros l l' Hsub.
    destruct (scanRoads_scanned turfLineString pointToLineDistance p l) as [Hmin _].
    destruct (scanRoads_scanned turfLineString pointToLineDistance p l')
      as [_ [[-> _] | (before & f & after & m & Hl' & Hf & -> & _)]].
    - simpl. destruct (minDist _); exact I.
    - simpl. apply (Hmin f (Fin m)); [|exact Hf].
      apply Hsub. rewrite Hl'. apply elem_of_app. right. apply list_elem_of_here. }
  intros Hsame. split; apply Hhalf; intros f; apply Hsame.
Qed.

End ScanResultFacts.

Lemma scan_determined_witness :
  exists m,
    sampleScan ([brokenRoad; kennonRoad] ++ sessionRoad :: [namelessRoad])
      (120599 # 1000, 16414 # 1000)
    = {| nearest := Some "Session Road"%string; limit := Number 20; minDist := Fin m |}.
Proof.
  eexists.
  refine (scan_determined sampleLineString samplePointToLineDistance
            (120599 # 1000, 16414 # 1000) [brokenRoad; kennonRoad] [namelessRoad]
            sessionRoad _ _ _ _).
  - vm_compute. reflexivity.
  - intros g d [-> | [-> | Hg]%elem_of_cons]%elem_of_cons Hd.
    + discriminate Hd.
    + vm_compute in Hd. injection Hd as <-. vm_compute. reflexivity.
    + inversion Hg.
  - intros g d ->%list_elem_of_singleton Hd.
    vm_compute in Hd. injection Hd as <-. vm_compute. discriminate.
Defined.

(** A nameless feature and Session Road both at 0 m of the fix, the
    nameless one first in the index: the fix is off every road. *)
Lemma nameless_nearest_hides_roads_witness :
  onRoad (sampleScan ([] ++ namelessRoad :: [sessionRoad]) (120596 # 1000, 16412 # 1000))
  = false.
Proof.
  refine (nameless_nearest_hides_roads sampleLineString samplePointToLineDistance
            (120596 # 1000, 16412 # 1000) [] [sessionRoad] namelessRoad _ _ _ _ _).
  - vm_compute. reflexivity.
  - intros g d Hg. inversion Hg.
  - intros g d ->%list_elem_of_singleton Hd.
    vm_compute in Hd. injection Hd as <-. vm_compute. discriminate.
  - left. reflexivity.
Defined.

Lemma least_distance_ignores_order_witness :
  num_le (minDist (sampleScan [kennonRoad; sessionRoad] (1206 # 10, 164 # 10)))
         (minDist (sampleScan [sessionRoad; kennonRoad; sessionRoad] (1206 # 10, 164 # 10))).
Proof.
  refine (proj1 (least_distance_ignores_order sampleLineString samplePointToLineDistance
                   (1206 # 10, 164 # 10) [kennonRoad; sessionRoad]
                   [sessionRoad; kennonRoad; sessionRoad] _)).
  intros f. rewrite !elem_of_cons. tauto.
Defined.

(** ** The road shown and the wording, over sequences of fixes *)

Section RoadShownFacts.

Variable turfLineString : list Position -> option RoadFeature.
Variable pointToLineDistance : Position -> RoadFeature -> option Num.
Variable roadFeatures : list RoadFeature.

Local Abbreviation scanAt coords :=
  (scanRoads turfLineString pointToLineDistance roadFeatures
     (Coords.longitude coords, Coords.latitude coords)).
Local Abbreviation callback := (watchCallback turfLineString pointToLineDistance roadFeatures).
Local Abbreviation stateAfter := (watchState turfLineString pointToLineDistance roadFeatures).
Local Abbreviation advisories := (announcements turfLineString pointToLineDistance roadFeatures).
Local Abbreviation offRoad := (fun fx : Coords.t * Z => onRoad (scanAt (fst fx)) = false).

Lemma callback_currentRoad (st : State) (coords : Coords.t) (now : Z) :
  currentRoad (fst (callback st coords now))
  = if onRoad (scanAt coords) then nearest (scanAt coords) else currentRoad st.
Proof.
  unfold watchCallback. destruct (onRoad (scanAt coords)) eqn:Hon.
  - destruct (proj1 (onRoad_true _) Hon) as (n & Hn & _).
    destruct (Z_le_gt_dec (now - lastSpokenRef st) 7000) as [Hle|Hgt].
    + rewrite (onPosition_cooling _ _ _ _ st coords now n Hon Hn Hle), Hn. reflexivity.
    + rewrite (onPosition_speaking _ _ _ _ st coords now n Hon Hn Hgt), Hn. reflexivity.
  - rewrite (onPosition_off_road _ _ _ _ st coords now Hon). reflexivity.
Qed.

Lemma watchState_app (st : State) (l1 l2 : list (Coords.t * Z)) :
  stateAfter st (l1 ++ l2) = stateAfter (stateAfter st l1) l2.
Proof.
  revert st. induction l1 as [|[coords now] l1 IH]; intros st; simpl; [reflexivity|].
  apply IH.
Qed.

Lemma currentRoad_off_road (st : State) (fixes : list (Coords.t * Z)) :
  Forall offRoad fixes ->
  currentRoad (stateAfter st fixes) = currentRoad st.
Proof.
  revert st. induction fixes as [|[coords now] rest IH]; intros st Hoff; simpl;
    [reflexivity|].
  inversion Hoff as [|? ? Hhead Hrest]; subst. simpl in Hhead.
  rewrite (IH _ Hrest), callback_currentRoad, Hhead. reflexivity.
Qed.

(** X4. The road shown depends on the positions alone, not on the clock,
    the cooldown or the speed: after a sequence of fixes it is the road
    matched at the last fix that was on a road, and the road shown before
    the sequence when no fix of it was on a road. *)
Theorem road_shown_after_fixes (st : State) (fixes : list (Coords.t * Z)) :
  (Forall offRoad fixes -> currentRoad (stateAfter st fixes) = currentRoad st) /\
  (forall before coords now after,
     fixes = before ++ (coords, now) :: after ->
     onRoad (scanAt coords) = true ->
     Forall offRoad after ->
     currentRoad (stateAfter st fixes) = nearest (scanAt coords)).
Proof.
  split; [apply currentRoad_off_road|].
  intros before coords now after -> Hon Hoff.
  rewrite watchState_app. simpl.
  rewrite (currentRoad_off_road _ after Hoff), callback_currentRoad, Hon. reflexivity.
Qed.

Lemma scan_limit_of_index (p : Position) :
  limit (scanRoads turfLineString pointToLineDistance roadFeatures p) = Number 0 \/
  exists f, f ∈ roadFeatures /\
    limit (scanRoads turfLineString pointToLineDistance roadFeatures p) = nearestLimit f.
Proof.
  destruct (scanRoads_scanned turfLineString pointToLineDistance p roadFeatures)
    as [_ [[-> _] | (before & f & after & m & Hl & _ & -> & _)]].
  - left. reflexivity.
  - right. exists f. split; [|reflexivity].
    rewrite Hl. apply elem_of_app. right. apply list_elem_of_here.
Qed.

Lemma callback_speaks_normal (st : State) (coords : Coords.t) (now : Z) (text : Template) :
  (forall f l, f ∈ roadFeatures -> nearestLimit f = Number l -> 0 <= l) ->
  text ∈ spoken (snd (callback st coords now)) ->
  exists n l, text = normalText n l.
Proof.
  intros Hlimits Htext.
  destruct (onRoad (scanAt coords)) eqn:Hon.
  - destruct (proj1 (onRoad_true _) Hon) as (n & Hn & _).
    destruct (Z_le_gt_dec (now - lastSpokenRef st) 7000) as [Hle|Hgt].
    + unfold watchCallback in Htext.
      rewrite (onPosition_cooling _ _ _ _ st coords now n Hon Hn Hle) in Htext.
      inversion Htext.
    + rewrite (watchCallback_wording _ _ _ st coords now n Hon Hn Hgt) in Htext.
      apply list_elem_of_singleton in Htext.
      assert (Hlim : exceedsLimit 0 (limit (scanAt coords)) = false).
      { assert (Hnum : forall l, limit (scanAt coords) = Number l -> 0 <= l).
        { intros l Hl.
          destruct (scan_limit_of_index (Coords.longitude coords, Coords.latitude coords))
            as [H0 | (f & Hf & Hlf)].
          - rewrite H0 in Hl. injection Hl as <-. lra.
          - rewrite Hlf in Hl. exact (Hlimits f l Hf Hl). }
        destruct (limit (scanAt coords)) as [l|key]; [|reflexivity].
        simpl. apply Qltb_ge. pose proof (Hnum l eq_refl). lra. }
      rewrite Hlim in Htext. eauto.
  - unfold watchCallback in Htext.
    rewrite (onPosition_off_road _ _ _ _ st coords now Hon) in Htext.
    inversion Htext.
Qed.

(** X5. On an index whose limits, where they are numbers, are all zero or
    more, no sequence of fixes, whatever their speeds, makes the screen
    speak the overspeed warning: every advisory has the normal wording. *)
Theorem overspeed_warning_never_spoken (st : State) (fixes : list (Coords.t * Z)) :
  (forall f l, f ∈ roadFeatures -> nearestLimit f = Number l -> 0 <= l) ->
  forall t text, (t, text) ∈ advisories st fixes ->
    (exists n l, text = normalText n l) /\
    (forall n l, text <> overspeedText n l).
Proof.
  intros Hlimits t text Hin.
  assert (Hnormal : exists n l, text = normalText n l).
  { revert st Hin. induction fixes as [|[coords now] rest IH]; intros st Hin; simpl in Hin.
    - inversion Hin.
    - apply elem_of_app in Hin as [Hin | Hin]; [|exact (IH _ Hin)].
      apply list_elem_of_fmap in Hin as (text' & [= -> ->] & Htext).
      exact (callback_speaks_normal st coords now text' Hlimits Htext). }
  split; [exact Hnormal|].
  destruct Hnormal as (n & l & ->). intros n' l'. discriminate.
Qed.

End RoadShownFacts.

(** On Kennon Road, then on Session Road, then far from both, at clock
    readings inside one cooldown: Session Road stays shown. *)
Lemma road_shown_after_fixes_witness :
  currentRoad (watchState sampleLineString samplePointToLineDistance [kennonRoad; sessionRoad]
                 initialState [(onKennon, 10000%Z); (fastOnSession, 10001%Z); (farAway, 10002%Z)])
  = Some "Session Road"%string /\
  currentRoad (watchState sampleLineString samplePointToLineDistance [kennonRoad; sessionRoad]
                 initialState [(farAway, 10000%Z)])
  = None.
Proof.
  split.
  - refine (proj2 (road_shown_after_fixes sampleLineString samplePointToLineDistance
                     [kennonRoad; sessionRoad] initialState
                     [(onKennon, 10000%Z); (fastOnSession, 10001%Z); (farAway, 10002%Z)])
                  [(onKennon, 10000%Z)] fastOnSession 10001%Z [(farAway, 10002%Z)]
                  eq_refl _ _).
    + vm_compute. reflexivity.
    + constructor; [vm_compute; reflexivity | constructor].
  - refine (proj1 (road_shown_after_fixes sampleLineString samplePointToLineDistance
                     [kennonRoad; sessionRoad] initialState [(farAway, 10000%Z)]) _).
    constructor; [vm_compute; reflexivity | constructor].
Defined.

Lemma overspeed_warning_never_spoken_witness :
  (exists n l, normalText "Session Road" (Number 20) = normalText n l) /\
  (forall n l, normalText "Session Road" (Number 20) <> overspeedText n l).
Proof.
  refine (overspeed_warning_never_spoken sampleLineString samplePointToLineDistance
            [kennonRoad; sessionRoad] initialState [(fastOnSession, 1700000000000%Z)]
            _ 1700000000000%Z (normalText "Session Road" (Number 20)) _).
  - intros f l [-> | ->%list_elem_of_singleton]%elem_of_cons [= <-];
      vm_compute; discriminate.
  - vm_compute. apply list_elem_of_here.
Defined.

(** ** The route search, branch by branch *)

(** All the ways through [handleSearch] for a query that is not blank. *)
Ltac search_branches st geoRes routeRes :=
  unfold handleSearch;
  destruct geoRes as [|[[|?dest ?cands]|]];
  destruct (userLocationRef st) as [?userLoc|] eqn:?Hloc;
  destruct routeRes as [|[[|?route ?routes]|]];
  try destruct (Route.coordinates _) as [?line|] eqn:?Hline;
  try destruct (matchRoads _ _ _) as [?matched|] eqn:?Hmatch.

Section SearchBranchFacts.

Variable pointToLineDistance : Position -> RoadFeature -> option Num.
Variable roadFeatures : list RoadFeature.

Local Abbreviation search := (handleSearch pointToLineDistance roadFeatures).

(** X6. A search for a query that is not blank asks the geocoder once,
    for the query followed by ", Baguio City, Philippines". It asks the
    router at most once, and only when the geocoder gave a candidate and a
    fix has been received: then from the last known location to the first
    candidate. Nothing else is requested. *)
Theorem search_requests (st : State) (query : string)
    (geoRes : Response (option (list Candidate.t)))
    (routeRes : Response (option (list Route.t))) :
  blank query = false ->
  requests (snd (search st query geoRes routeRes))
  = FetchGeocode (query +:+ ", Baguio City, Philippines")
    :: match geoRes, userLocationRef st with
       | Resolved (Some (dest :: _)), Some userLoc =>
           [FetchRoute userLoc (Candidate.lon dest) (Candidate.lat dest)]
       | _, _ => []
       end.
Proof.
  intros Hb. pose proof (search_not_blank query Hb) as He.
  search_branches st geoRes routeRes; rewrite He; reflexivity.
Qed.

(** X7. A search for a query that is not blank ends in one of two ways:
    with one alert, one of the four the code has, and nothing spoken; or
    with "Route found to" the query spoken and no alert. *)
Theorem search_outcome (st : State) (query : string)
    (geoRes : Response (option (list Candidate.t)))
    (routeRes : Response (option (list Route.t))) :
  blank query = false ->
  (spoken (snd (search st query geoRes routeRes)) = [] /\
   exists alert,
     alerts (snd (search st query geoRes routeRes)) = [alert] /\
     alert ∈ [("Not found"%string, "Could not find that location."%string);
              ("Error"%string, "User location not yet detected."%string);
              ("Routing failed"%string, "No route found."%string);
              ("Error"%string, "Failed to find route."%string)]) \/
  (spoken (snd (search st query geoRes routeRes)) = [routeFoundText query] /\
   alerts (snd (search st query geoRes routeRes)) = []).
Proof.
  intros Hb. pose proof (search_not_blank query Hb) as He.
  search_branches st geoRes routeRes; rewrite He;
    first [ right; split; reflexivity
          | left; split; [reflexivity|]; eexists; split; [reflexivity|];
            rewrite !elem_of_cons; tauto ].
Qed.

(** X8. Whatever the query and the answers, a search leaves the map
    region, the search text, the suggestions, the speed readout, the road
    shown, the timestamp of the last advisory and the last known location
    as they were. It leaves the whole state as it was unless the router
    answered with a route that has a geometry: then the legend is shown
    and the polyline is that geometry, each [[lon, lat]] turned into
    [{latitude, longitude}]. *)
Theorem search_frame (st : State) (query : string)
    (geoRes : Response (option (list Candidate.t)))
    (routeRes : Response (option (list Route.t))) :
  region (fst (search st query geoRes routeRes)) = region st /\
  searchText (fst (search st query geoRes routeRes)) = searchText st /\
  suggestions (fst (search st query geoRes routeRes)) = suggestions st /\
  userSpeed (fst (search st query geoRes routeRes)) = userSpeed st /\
  currentRoad (fst (search st query geoRes routeRes)) = currentRoad st /\
  lastSpokenRef (fst (search st query geoRes routeRes)) = lastSpokenRef st /\
  userLocationRef (fst (search st query geoRes routeRes)) = userLocationRef st /\
  (fst (search st query geoRes routeRes) = st \/
   exists route rest line,
     routeRes = Resolved (Some (route :: rest)) /\
     Route.coordinates route = Some line /\
     showLegend (fst (search st query geoRes routeRes)) = true /\
     routeCoords (fst (search st query geoRes routeRes)) = map toLatLng line).
Proof.
  unfold handleSearch. destruct (isEmpty (trim query)).
  { repeat split; auto. }
  destruct geoRes as [|[[|dest cands]|]];
    destruct (userLocationRef st) as [userLoc|] eqn:Hloc;
    destruct routeRes as [|[[|route routes]|]];
    try destruct (Route.coordinates _) as [line|] eqn:Hline;
    try destruct (matchRoads _ _ _) as [matched|] eqn:Hmatch;
    simpl; rewrite ?Hloc; repeat split; auto;
    right; exists route, routes, line; auto.
Qed.

(** X9. When the route matching throws, the search has already drawn the
    new route and shown the legend: the state holds the new polyline with
    the matched roads of the search before. *)
Theorem throwing_feature_leaves_stale_legend (st : State) (query : string)
    (dest : Candidate.t) (cands : list Candidate.t) (userLoc : UserLoc.t)
    (route : Route.t) (routes : list Route.t) (line : list Position)
    (road : RoadFeature) (c : Position) :
  blank query = false ->
  userLocationRef st = Some userLoc ->
  Route.coordinates route = Some line ->
  road ∈ roadFeatures -> c ∈ line -> pointToLineDistance c road = None ->
  fst (search st query (Resolved (Some (dest :: cands)))
         (Resolved (Some (route :: routes))))
  = setShowLegend true (setRouteCoords (map toLatLng line) st).
Proof.
  intros Hb Hloc Hline Hroad Hc Hnone.
  pose proof (search_not_blank query Hb) as He.
  assert (Hm : matchRoads pointToLineDistance roadFeatures line = None).
  { apply matchRoadsFrom_throws. eauto. }
  unfold handleSearch. rewrite He, Hloc, Hline, Hm. reflexivity.
Qed.

(** X10. After a search that succeeded the camera is sent to the middle
    coordinate of the route, the one at index [floor(length / 2)], with
    deltas 0.03 over 1000 ms. That coordinate exists whenever the route
    has a coordinate; for a route without coordinates the camera is sent
    to a region without a centre. *)
Theorem camera_goes_to_route_middle (st : State) (query : string)
    (geoRes : Response (option (list Candidate.t)))
    (routeRes : Response (option (list Route.t))) :
  spoken (snd (search st query geoRes routeRes)) = [routeFoundText query] ->
  exists route rest line,
    routeRes = Resolved (Some (route :: rest)) /\
    Route.coordinates route = Some line /\
    AnimateToRegion (toLatLng <$> line !! (length line / 2)%nat) (3 # 100) (3 # 100) 1000
      ∈ snd (search st query geoRes routeRes) /\
    (line <> [] -> exists c, c ∈ line /\ line !! (length line / 2)%nat = Some c) /\
    (line = [] -> line !! (length line / 2)%nat = None).
Proof.
  intros Hspoken.
  assert (Hne : spoken (snd (search st query geoRes routeRes)) <> [])
    by (rewrite Hspoken; discriminate).
  clear Hspoken. revert Hne. unfold handleSearch.
  destruct (isEmpty (trim query)); [intros []; reflexivity|].
  destruct geoRes as [|[[|dest cands]|]]; try (intros []; reflexivity).
  destruct (userLocationRef st) as [userLoc|]; [|intros []; reflexivity].
  destruct routeRes as [|[[|route rest]|]]; try (intros []; reflexivity).
  destruct (Route.coordinates route) as [line|] eqn:Hline; [|intros []; reflexivity].
  destruct (matchRoads _ _ line) as [matched|]; [|intros []; reflexivity].
  intros _. exists route, rest, line. split; [reflexivity|]. split; [exact Hline|].
  split; [|split].
  - simpl. rewrite length_map, list_lookup_fmap.
    apply list_elem_of_further, list_elem_of_further, list_elem_of_here.
  - intros Hline'.
    assert (Hlt : (length line / 2 < length line)%nat).
    { destruct line; [congruence|]. apply Nat.div_lt; simpl; lia. }
    destruct (lookup_lt_is_Some_2 line _ Hlt) as [c Hc].
    exists c. split; [eapply list_elem_of_lookup_2, Hc | exact Hc].
  - intros ->. reflexivity.
Qed.

(** X11. No history: what a search does depends on the state before it
    through the last known location alone. From two states with the same
    location it has the same effects, and when it draws a route, the same
    polyline, legend flag and matched roads. *)
Theorem search_keeps_no_history (st st' : State) (query : string)
    (geoRes : Response (option (list Candidate.t)))
    (routeRes : Response (option (list Route.t))) :
  userLocationRef st = userLocationRef st' ->
  snd (search st query geoRes routeRes) = snd (search st' query geoRes routeRes) /\
  (fst (search st query geoRes routeRes) = st /\
   fst (search st' query geoRes routeRes) = st' \/
   routeCoords (fst (search st query geoRes routeRes))
   = routeCoords (fst (search st' query geoRes routeRes)) /\
   showLegend (fst (search st query geoRes routeRes))
   = showLegend (fst (search st' query geoRes routeRes)) /\
   (spoken (snd (search st query geoRes routeRes)) <> [] ->
    routeRoads (fst (search st query geoRes routeRes))
    = routeRoads (fst (search st' query geoRes routeRes)))).
Proof.
  intros Hsame. unfold handleSearch. rewrite <- Hsame.
  destruct (isEmpty (trim query)); [auto|].
  destruct geoRes as [|[[|dest cands]|]];
    destruct (userLocationRef st) as [userLoc|];
    destruct routeRes as [|[[|route routes]|]];
    try destruct (Route.coordinates _) as [line|];
    try destruct (matchRoads _ _ _) as [matched|];
    simpl; auto.
  split; [reflexivity|]. right. repeat split. intros []. reflexivity.
Qed.

End SearchBranchFacts.

Lemma search_requests_witness :
  requests (snd (sampleSearch [kennonRoad] locatedState "Burnham Park" oneCandidate
                   routeOnKennon))
  = [FetchGeocode "Burnham Park, Baguio City, Philippines";
     FetchRoute {| UserLoc.lat := 16412 # 1000; UserLoc.lon := 120596 # 1000 |}
       (1206 # 10) (164 # 10)] /\
  requests (snd (sampleSearch [kennonRoad] initialState "Burnham Park" oneCandidate
                   routeOnKennon))
  = [FetchGeocode "Burnham Park, Baguio City, Philippines"].
Proof.
  split.
  - exact (search_requests samplePointToLineDistance [kennonRoad] locatedState
             "Burnham Park" oneCandidate routeOnKennon eq_refl).
  - exact (search_requests samplePointToLineDistance [kennonRoad] initialState
             "Burnham Park" oneCandidate routeOnKennon eq_refl).
Defined.

Lemma search_outcome_witness :
  (spoken (snd (sampleSearch [kennonRoad] locatedState "Burnham Park" Rejected
                  routeOnKennon)) = [] /\
   exists alert,
     alerts (snd (sampleSearch [kennonRoad] locatedState "Burnham Park" Rejected
                    routeOnKennon)) = [alert] /\
     alert ∈ [("Not found"%string, "Could not find that location."%string);
              ("Error"%string, "User location not yet detected."%string);
              ("Routing failed"%string, "No route found."%string);
              ("Error"%string, "Failed to find route."%string)]) \/
  (spoken (snd (sampleSearch [kennonRoad] locatedState "Burnham Park" Rejected
                  routeOnKennon)) = [routeFoundText "Burnham Park"] /\
   alerts (snd (sampleSearch [kennonRoad] locatedState "Burnham Park" Rejected
                  routeOnKennon)) = []).
Proof.
  exact (search_outcome samplePointToLineDistance [kennonRoad] locatedState
           "Burnham Park" Rejected routeOnKennon eq_refl).
Defined.

(** A first search matched Kennon Road; a second one, on the same route
    with a broken feature now in the index, redraws the route and keeps
    Kennon Road in the legend. *)
Lemma throwing_feature_leaves_stale_legend_witness :
  fst (sampleSearch [brokenRoad; kennonRoad]
         (fst (sampleSearch [kennonRoad] locatedState "Kennon Road" oneCandidate
                 routeOnKennon))
         "Kennon Road" oneCandidate routeOnKennon)
  = setShowLegend true
      (setRouteCoords (map toLatLng [(1206 # 10, 164 # 10)])
         (fst (sampleSearch [kennonRoad] locatedState "Kennon Road" oneCandidate
                 routeOnKennon))).
Proof.
  refine (throwing_feature_leaves_stale_legend samplePointToLineDistance
            [brokenRoad; kennonRoad] _ "Kennon Road" _ [] _ _ []
            [(1206 # 10, 164 # 10)] brokenRoad (1206 # 10, 164 # 10) _ _ _ _ _ _).
  - reflexivity.
  - vm_compute. reflexivity.
  - reflexivity.
  - apply list_elem_of_here.
  - apply list_elem_of_here.
  - reflexivity.
Defined.

Lemma camera_goes_to_route_middle_witness :
  exists route rest line,
    routeOnKennon = Resolved (Some (route :: rest)) /\
    Route.coordinates route = Some line /\
    AnimateToRegion (toLatLng <$> line !! (length line / 2)%nat) (3 # 100) (3 # 100) 1000
      ∈ snd (sampleSearch [kennonRoad] locatedState "Kennon Road" oneCandidate
               routeOnKennon).
Proof.
  destruct (camera_goes_to_route_middle samplePointToLineDistance [kennonRoad]
              locatedState "Kennon Road" oneCandidate routeOnKennon)
    as (route & rest & line & H1 & H2 & H3 & _).
  - vm_compute. reflexivity.
  - exists route, rest, line. auto.
Defined.

Lemma search_keeps_no_history_witness :
  snd (sampleSearch [kennonRoad] locatedState "Kennon Road" oneCandidate routeOnKennon)
  = snd (sampleSearch [kennonRoad]
           (fst (sampleSearch [kennonRoad] locatedState "Burnham Park" oneCandidate
                   routeOnKennon))
           "Kennon Road" oneCandidate routeOnKennon).
Proof.
  refine (proj1 (search_keeps_no_history samplePointToLineDistance [kennonRoad]
                   locatedState _ "Kennon Road" oneCandidate routeOnKennon _)).
  vm_compute. reflexivity.
Defined.

(** ** Fixes, searches and typing together *)

Section InterplayFacts.

Variable turfLineString : list Position -> option RoadFeature.
Variable pointToLineDistance : Position -> RoadFeature -> option Num.
Variable roadFeatures : list RoadFeature.

Local Abbreviation callback := (watchCallback turfLineString pointToLineDistance roadFeatures).
Local Abbreviation stateAfter := (watchState turfLineString pointToLineDistance roadFeatures).
Local Abbreviation search := (handleSearch pointToLineDistance roadFeatures).
Local Abbreviation handle := (handleEvent turfLineString pointToLineDistance roadFeatures).

Lemma search_keeps_advisory_state (st : State) (query : string)
    (geoRes : Response (option (list Candidate.t)))
    (routeRes : Response (option (list Route.t))) :
  lastSpokenRef (fst (search st query geoRes routeRes)) = lastSpokenRef st /\
  currentRoad (fst (search st query geoRes routeRes)) = currentRoad st /\
  userLocationRef (fst (search st query geoRes routeRes)) = userLocationRef st.
Proof.
  unfold handleSearch. destruct (isEmpty (trim query)); [auto|].
  destruct geoRes as [|[[|dest cands]|]];
    destruct (userLocationRef st) as [userLoc|] eqn:Hloc;
    destruct routeRes as [|[[|route routes]|]];
    try destruct (Route.coordinates _) as [line|];
    try destruct (matchRoads _ _ _) as [matched|];
    simpl; rewrite ?Hloc; auto.
Qed.

Lemma callback_effects_by_timestamp (st st' : State) (coords : Coords.t) (now : Z) :
  lastSpokenRef st = lastSpokenRef st' ->
  snd (callback st coords now) = snd (callback st' coords now).
Proof.
  intros Hsame. unfold watchCallback, onPosition.
  destruct (nearest _) as [n|]; [|reflexivity].
  destruct (negb (isEmpty n) && num_leb _ _); [|reflexivity].
  simpl. rewrite Hsame. destruct (_ >? _)%Z; reflexivity.
Qed.

Lemma callback_userLocation (st : State) (coords : Coords.t) (now : Z) :
  userLocationRef (fst (callback st coords now))
  = Some {| UserLoc.lat := Coords.latitude coords; UserLoc.lon := Coords.longitude coords |}.
Proof.
  unfold watchCallback, onPosition.
  destruct (nearest _) as [n|]; [|reflexivity].
  destruct (negb (isEmpty n) && num_leb _ _); [|reflexivity].
  simpl. destruct (_ >? _)%Z; reflexivity.
Qed.

(** X12. Searching and typing stay out of the advisories: an event other
    than a fix leaves the timestamp of the last advisory and the road
    shown as they were, and the next fix has the effects it would have had
    without the event. So "Route found" neither waits for the cooldown nor
    starts one. *)
Theorem other_events_leave_advisories (st : State) (e : Event) :
  (forall coords now, e <> PositionFix coords now) ->
  lastSpokenRef (fst (handle st e)) = lastSpokenRef st /\
  currentRoad (fst (handle st e)) = currentRoad st /\
  forall coords now,
    snd (callback (fst (handle st e)) coords now) = snd (callback st coords now).
Proof.
  intros Hfix.
  assert (Hkeep : lastSpokenRef (fst (handle st e)) = lastSpokenRef st /\
                  currentRoad (fst (handle st e)) = currentRoad st).
  { destruct e as [coords now | text | geoRes routeRes | i geoRes routeRes]; simpl.
    - destruct (Hfix coords now eq_refl).
    - unfold handleSearchChange. destruct (isEmpty (trim text)); auto.
    - destruct (search_keeps_advisory_state st (searchText st) geoRes routeRes)
        as (H1 & H2 & _). auto.
    - destruct (suggestions st !! i) as [road|]; [|auto]. unfold pressSuggestion.
      destruct (search_keeps_advisory_state st (default ""%string (propName road))
                  geoRes routeRes) as (H1 & H2 & _). auto. }
  destruct Hkeep as [Htime Hroad]. repeat split; auto.
  intros coords now. apply callback_effects_by_timestamp, Htime.
Qed.

(** X13. Once a fix has been received a search never fails for want of a
    location: after a sequence of fixes the last known location is that of
    the last fix, no search shows "User location not yet detected", and a
    route request starts from the last fix. *)
Theorem location_known_after_a_fix (st : State) (before : list (Coords.t * Z))
    (coords : Coords.t) (now : Z) (query : string)
    (geoRes : Response (option (list Candidate.t)))
    (routeRes : Response (option (list Route.t))) :
  userLocationRef (stateAfter st (before ++ [(coords, now)]))
  = Some {| UserLoc.lat := Coords.latitude coords; UserLoc.lon := Coords.longitude coords |} /\
  (("Error"%string, "User location not yet detected."%string)
     ∉ alerts (snd (search (stateAfter st (before ++ [(coords, now)]))
                      query geoRes routeRes))) /\
  forall origin destLon destLat,
    FetchRoute origin destLon destLat
      ∈ snd (search (stateAfter st (before ++ [(coords, now)])) query geoRes routeRes) ->
    origin = {| UserLoc.lat := Coords.latitude coords; UserLoc.lon := Coords.longitude coords |}.
Proof.
  assert (Hloc : userLocationRef (stateAfter st (before ++ [(coords, now)]))
                 = Some {| UserLoc.lat := Coords.latitude coords;
                           UserLoc.lon := Coords.longitude coords |}).
  { rewrite watchState_app. simpl. apply callback_userLocation. }
  split; [exact Hloc|].
  unfold handleSearch, failedToFindRoute, speak. rewrite Hloc.
  destruct (isEmpty (trim query)).
  { simpl. split; [intros H; inversion H | intros ? ? ? H; inversion H]. }
  destruct geoRes as [|[[|dest cands]|]];
    destruct routeRes as [|[[|route routes]|]];
    try destruct (Route.coordinates _) as [line|];
    try destruct (matchRoads _ _ _) as [matched|];
    simpl; (split; [|intros origin destLon destLat]);
    rewrite ?elem_of_cons, ?elem_of_nil; intuition congruence.
Qed.

Lemma search_speaks_last (st : State) (query : string)
    (geoRes : Response (option (list Candidate.t)))
    (routeRes : Response (option (list Route.t))) :
  spoken (snd (search st query geoRes routeRes)) = [] \/
  exists pre text,
    snd (search st query geoRes routeRes) = pre ++ [SpeechStop; SpeechSpeak text] /\
    spoken pre = [].
Proof.
  unfold handleSearch. destruct (isEmpty (trim query)); [auto|].
  destruct geoRes as [|[[|dest cands]|]];
    destruct (userLocationRef st) as [userLoc|];
    destruct routeRes as [|[[|route routes]|]];
    try destruct (Route.coordinates _) as [line|];
    try destruct (matchRoads _ _ _) as [matched|];
    auto.
  right. eexists [_; _; _], _. split; reflexivity.
Qed.

(** X14. No handler lets two utterances overlap: whatever the event, its
    handler speaks at most once, as the last thing it does, and stops the
    speech in progress just before. *)
Theorem every_utterance_follows_a_stop (st : State) (e : Event) :
  spoken (snd (handle st e)) = [] \/
  exists pre text,
    snd (handle st e) = pre ++ [SpeechStop; SpeechSpeak text] /\
    spoken pre = [].
Proof.
  destruct e as [coords now | text | geoRes routeRes | i geoRes routeRes]; simpl.
  - unfold watchCallback, onPosition.
    destruct (nearest _) as [n|]; [|auto].
    destruct (negb (isEmpty n) && num_leb _ _); [|auto].
    simpl. destruct (_ >? _)%Z; [|auto].
    right. eexists [], _. split; reflexivity.
  - auto.
  - apply search_speaks_last.
  - destruct (suggestions st !! i) as [road|]; [|auto]. apply search_speaks_last.
Qed.

End InterplayFacts.

(** A fix on Kennon Road speaks its advisory; "Kennon Road" is typed and
    submitted, and the search speaks its "Route found" at once. The
    timestamp of the advisory stays, and a fix 7001 ms after the advisory
    has the effects it would have had without the search. *)
Lemma other_events_leave_advisories_witness :
  spoken (snd (handleEvent sampleLineString samplePointToLineDistance
                 [sessionRoad; kennonRoad]
                 (runEvents sampleLineString samplePointToLineDistance
                    [sessionRoad; kennonRoad] initialState
                    [PositionFix onKennon 1700000000000; ChangeText "Kennon Road"])
                 (SubmitEditing oneCandidate routeOnKennon)))
  = [routeFoundText "Kennon Road"] /\
  lastSpokenRef (fst (handleEvent sampleLineString samplePointToLineDistance
                        [sessionRoad; kennonRoad]
                        (runEvents sampleLineString samplePointToLineDistance
                           [sessionRoad; kennonRoad] initialState
                           [PositionFix onKennon 1700000000000; ChangeText "Kennon Road"])
                        (SubmitEditing oneCandidate routeOnKennon)))
  = 1700000000000%Z /\
  spoken (snd (sampleCallback [sessionRoad; kennonRoad]
                 (fst (handleEvent sampleLineString samplePointToLineDistance
                         [sessionRoad; kennonRoad]
                         (runEvents sampleLineString samplePointToLineDistance
                            [sessionRoad; kennonRoad] initialState
                            [PositionFix onKennon 1700000000000; ChangeText "Kennon Road"])
                         (SubmitEditing oneCandidate routeOnKennon)))
                 fastOnSession 1700000007001))
  = [normalText "Session Road" (Number 20)].
Proof.
  destruct (other_events_leave_advisories sampleLineString samplePointToLineDistance
              [sessionRoad; kennonRoad]
              (runEvents sampleLineString samplePointToLineDistance
                 [sessionRoad; kennonRoad] initialState
                 [PositionFix onKennon 1700000000000; ChangeText "Kennon Road"])
              (SubmitEditing oneCandidate routeOnKennon))
    as (Htime & _ & Hnext).
  { intros coords now. discriminate. }
  split; [vm_compute; reflexivity|]. split.
  - rewrite Htime. vm_compute. reflexivity.
  - unfold sampleCallback. rewrite Hnext. vm_compute. reflexivity.
Defined.

(** ** Typing and the suggestions *)

Lemma string_app_cons (x : ascii) (a b : string) :
  String x a +:+ b = String x (a +:+ b).
Proof. reflexivity. Qed.

Lemma string_app_assoc (a b c : string) : (a +:+ b) +:+ c = a +:+ (b +:+ c).
Proof.
  induction a as [|x a IH]; [reflexivity|].
  rewrite !string_app_cons, IH. reflexivity.
Qed.

Lemma string_app_empty (a : string) : a +:+ EmptyString = a.
Proof.
  induction a as [|x a IH]; [reflexivity|].
  rewrite string_app_cons, IH. reflexivity.
Qed.

Lemma toLowerCase_app (a b : string) :
  toLowerCase (a +:+ b) = toLowerCase a +:+ toLowerCase b.
Proof.
  induction a as [|x a IH]; [reflexivity|].
  rewrite string_app_cons. simpl. rewrite string_app_cons, IH. reflexivity.
Qed.

Lemma blank_app (a b : string) : blank (a +:+ b) = blank a && blank b.
Proof.
  induction a as [|x a IH]; [reflexivity|].
  rewrite string_app_cons. simpl. rewrite IH. apply andb_assoc.
Qed.

Lemma isWhiteSpace_lowerChar (c : ascii) : isWhiteSpace (lowerChar c) = isWhiteSpace c.
Proof. destruct c as [[] [] [] [] [] [] [] []]; reflexivity. Qed.

Lemma blank_toLowerCase (s : string) : blank (toLowerCase s) = blank s.
Proof.
  induction s as [|c s IH]; simpl; [reflexivity|].
  rewrite isWhiteSpace_lowerChar, IH. reflexivity.
Qed.

(** A name that contains a text that is not blank is not blank. *)
Lemma containing_name_not_blank (n text : string) :
  blank text = false -> containsIgnoringCase n text -> blank n = false.
Proof.
  intros Hb (pre & post & H).
  rewrite <- (blank_toLowerCase n), H, !blank_app, blank_toLowerCase, Hb.
  apply andb_false_iff. right. reflexivity.
Qed.

Section TypingFacts.

Variable roadFeatures : list RoadFeature.

Local Abbreviation typed st text := (handleSearchChange roadFeatures st text).

Lemma suggestions_match (st : State) (text : string) (r : RoadFeature) :
  r ∈ suggestions (typed st text) ->
  blank text = false /\ r ∈ roadFeatures /\ nameIncludes text r = true.
Proof.
  unfold handleSearchChange. destruct (isEmpty (trim text)) eqn:He; simpl.
  - intros Hr. inversion Hr.
  - intros Hr. split.
    + destruct (blank text) eqn:Hb; [|reflexivity].
      apply trim_blank in Hb. congruence.
    + apply elem_of_take in Hr as (i & Hi & _).
      apply list_elem_of_lookup_2, list_elem_of_In, filter_In in Hi as [Hin Hm].
      split; [apply list_elem_of_In, Hin | exact Hm].
Qed.

(** X15. Typing more never brings up a road that the shorter text did not
    match: every suggestion for a text that contains [text] is a feature
    of the index whose name contains [text], letter case apart. *)
Theorem longer_text_narrows_matches (st : State) (pre text post : string)
    (r : RoadFeature) :
  r ∈ suggestions (typed st (pre +:+ text +:+ post)) ->
  r ∈ roadFeatures /\
  exists n, propName r = Some n /\ containsIgnoringCase n text.
Proof.
  intros (_ & Hin & Hm)%suggestions_match. split; [exact Hin|].
  apply nameIncludes_spec in Hm as (n & Hn & p & q & H).
  exists n. split; [exact Hn|].
  exists (p +:+ toLowerCase pre), (toLowerCase post +:+ q).
  rewrite H, !toLowerCase_app, !string_app_assoc. reflexivity.
Qed.

(** X16. Typing the name of a road of the index, in any letter case,
    lists that road, unless five matches are listed already. *)
Theorem typing_a_name_lists_the_road (st : State) (text n : string) (r : RoadFeature) :
  r ∈ roadFeatures ->
  propName r = Some n ->
  blank n = false ->
  toLowerCase text = toLowerCase n ->
  r ∈ suggestions (typed st text) \/ length (suggestions (typed st text)) = 5%nat.
Proof.
  intros Hr Hn Hb Hcase.
  assert (Hbt : blank text = false).
  { rewrite <- (blank_toLowerCase text), Hcase, blank_toLowerCase. exact Hb. }
  assert (Hm : nameIncludes text r = true).
  { apply nameIncludes_spec. exists n. split; [exact Hn|].
    exists EmptyString, EmptyString. rewrite Hcase, string_app_empty. reflexivity. }
  unfold handleSearchChange. rewrite (search_not_blank text Hbt). simpl.
  set (all := List.filter (nameIncludes text) roadFeatures).
  assert (Hall : r ∈ all).
  { apply list_elem_of_In, filter_In. split; [apply list_elem_of_In, Hr | exact Hm]. }
  destruct (le_lt_dec (length all) 5) as [Hle|Hgt].
  - left. rewrite take_ge by exact Hle. exact Hall.
  - right. rewrite length_take. lia.
Qed.

End TypingFacts.

Lemma longer_text_narrows_matches_witness :
  sessionRoad ∈ [kennonRoad; sessionRoad] /\
  exists n, propName sessionRoad = Some n /\ containsIgnoringCase n "ion".
Proof.
  refine (longer_text_narrows_matches [kennonRoad; sessionRoad] initialState
            "Sess" "ion" " R" sessionRoad _).
  vm_compute. apply list_elem_of_here.
Defined.

Lemma typing_a_name_lists_the_road_witness :
  sessionRoad ∈ suggestions (handleSearchChange [kennonRoad; sessionRoad] initialState
                               "SESSION road") \/
  length (suggestions (handleSearchChange [kennonRoad; sessionRoad] initialState
                         "SESSION road")) = 5%nat.
Proof.
  refine (typing_a_name_lists_the_road [kennonRoad; sessionRoad] initialState
            "SESSION road" "Session Road" sessionRoad _ _ _ _).
  - apply list_elem_of_further, list_elem_of_here.
  - reflexivity.
  - reflexivity.
  - reflexivity.
Defined.

(** ** What holds in every state the screen can reach *)

Lemma nearestName_Some (f : RoadFeature) (n : string) :
  nearestName f = Some n -> propName f = Some n /\ n <> EmptyString.
Proof.
  unfold nearestName, orNull. destruct (propName f) as [m|]; [|discriminate].
  destruct m; simpl; [discriminate|]. intros [= <-]. split; [reflexivity | discriminate].
Qed.

Section ReachableFacts.

Variable turfLineString : list Position -> option RoadFeature.
Variable pointToLineDistance : Position -> RoadFeature -> option Num.
Variable roadFeatures : list RoadFeature.

Local Abbreviation scanAt coords :=
  (scanRoads turfLineString pointToLineDistance roadFeatures
     (Coords.longitude coords, Coords.latitude coords)).
Local Abbreviation callback := (watchCallback turfLineString pointToLineDistance roadFeatures).
Local Abbreviation search := (handleSearch pointToLineDistance roadFeatures).
Local Abbreviation handle := (handleEvent turfLineString pointToLineDistance roadFeatures).
Local Abbreviation run := (runEvents turfLineString pointToLineDistance roadFeatures).

Lemma runEvents_invariant (P : State -> Prop) :
  (forall st e, P st -> P (fst (handle st e))) ->
  forall events st, P st -> P (run st events).
Proof.
  intros Hstep events. induction events as [|e rest IH]; intros st Hst; simpl; [exact Hst|].
  apply IH, Hstep, Hst.
Qed.

Lemma callback_keeps_search_state (st : State) (coords : Coords.t) (now : Z) :
  suggestions (fst (callback st coords now)) = suggestions st /\
  showLegend (fst (callback st coords now)) = showLegend st /\
  routeCoords (fst (callback st coords now)) = routeCoords st /\
  routeRoads (fst (callback st coords now)) = routeRoads st.
Proof.
  unfold watchCallback, onPosition.
  destruct (nearest _) as [n|]; [|auto].
  destruct (negb (isEmpty n) && num_leb _ _); [|auto].
  simpl. destruct (_ >? _)%Z; auto.
Qed.

Lemma typing_keeps_other_state (st : State) (text : string) :
  currentRoad (handleSearchChange roadFeatures st text) = currentRoad st /\
  showLegend (handleSearchChange roadFeatures st text) = showLegend st /\
  routeCoords (handleSearchChange roadFeatures st text) = routeCoords st /\
  routeRoads (handleSearchChange roadFeatures st text) = routeRoads st.
Proof.
  unfold handleSearchChange. destruct (isEmpty (trim text)); auto.
Qed.

Lemma callback_road_indexed (st : State) (coords : Coords.t) (now : Z) (n : string) :
  onRoad (scanAt coords) = true ->
  nearest (scanAt coords) = Some n ->
  n <> EmptyString /\ exists f, f ∈ roadFeatures /\ propName f = Some n.
Proof.
  intros Hon Hn.
  destruct (scanRoads_scanned turfLineString pointToLineDistance
              (Coords.longitude coords, Coords.latitude coords) roadFeatures)
    as [_ [[Hs _] | (before & f & after & m & Hl & _ & Hs & _)]];
    rewrite Hs in Hn; simpl in Hn; [discriminate|].
  apply nearestName_Some in Hn as [Hname Hne]. split; [exact Hne|].
  exists f. split; [|exact Hname].
  rewrite Hl. apply elem_of_app. right. apply list_elem_of_here.
Qed.

Lemma handle_currentRoad (st : State) (e : Event) :
  currentRoad (fst (handle st e)) = currentRoad st \/
  exists coords now,
    e = PositionFix coords now /\ onRoad (scanAt coords) = true /\
    currentRoad (fst (handle st e)) = nearest (scanAt coords).
Proof.
  destruct e as [coords now | text | geoRes routeRes | i geoRes routeRes]; simpl.
  - rewrite callback_currentRoad. destruct (onRoad (scanAt coords)) eqn:Hon; [|auto].
    right. exists coords, now. auto.
  - left. apply typing_keeps_other_state.
  - left. apply search_keeps_advisory_state.
  - left. destruct (suggestions st !! i) as [road|]; [|reflexivity].
    apply search_keeps_advisory_state.
Qed.

(** X17. In every state the screen reaches from its initial state, by
    fixes, typing and searches in any order, the road shown, when there is
    one, is the name of a feature of the index and is not empty. Once a
    road is shown one stays shown: no event clears it. *)
Theorem road_shown_is_indexed_and_stays (events : list Event) :
  (forall n, currentRoad (run initialState events) = Some n ->
     n <> EmptyString /\ exists f, f ∈ roadFeatures /\ propName f = Some n) /\
  (forall st, is_Some (currentRoad st) -> is_Some (currentRoad (run st events))).
Proof.
  split.
  - apply (runEvents_invariant
             (fun st => forall n, currentRoad st = Some n ->
                n <> EmptyString /\ exists f, f ∈ roadFeatures /\ propName f = Some n)).
    + intros st e Hst n.
      destruct (handle_currentRoad st e) as [-> | (coords & now & _ & Hon & ->)].
      * apply Hst.
      * apply (callback_road_indexed st coords now n Hon).
    + intros n Hn. discriminate Hn.
  - apply (runEvents_invariant (fun st => is_Some (currentRoad st))).
    intros st e Hst.
    destruct (handle_currentRoad st e) as [-> | (coords & now & _ & Hon & ->)];
      [exact Hst|].
    destruct (proj1 (onRoad_true _) Hon) as (n & -> & _). eauto.
Qed.

Lemma search_state_cases (st : State) (query : string)
    (geoRes : Response (option (list Candidate.t)))
    (routeRes : Response (option (list Route.t))) :
  fst (search st query geoRes routeRes) = st \/
  (exists line,
     fst (search st query geoRes routeRes)
     = setShowLegend true (setRouteCoords (map toLatLng line) st)) \/
  (exists line matched,
     matchRoads pointToLineDistance roadFeatures line = Some matched /\
     fst (search st query geoRes routeRes)
     = setRouteRoads matched (setShowLegend true (setRouteCoords (map toLatLng line) st))).
Proof.
  unfold handleSearch. destruct (isEmpty (trim query)); [auto|].
  destruct geoRes as [|[[|dest cands]|]];
    destruct (userLocationRef st) as [userLoc|];
    destruct routeRes as [|[[|route routes]|]];
    try destruct (Route.coordinates _) as [line|];
    try destruct (matchRoads _ _ _) as [matched|] eqn:Hm;
    auto.
  - right. right. exists line, matched. auto.
  - right. left. exists line. reflexivity.
Qed.

(** The route part of a state: nothing drawn while the legend is hidden;
    matched roads with distinct names, each the entry of a feature of the
    index. *)
Lemma route_state_step (st : State) (e : Event) :
  ((showLegend st = false -> routeCoords st = [] /\ routeRoads st = []) /\
   NoDup (RouteRoad.name <$> routeRoads st) /\
   forall r, r ∈ routeRoads st -> exists road, road ∈ roadFeatures /\ r = routeRoadOf road) ->
  (showLegend (fst (handle st e)) = false ->
   routeCoords (fst (handle st e)) = [] /\ routeRoads (fst (handle st e)) = []) /\
  NoDup (RouteRoad.name <$> routeRoads (fst (handle st e))) /\
  forall r, r ∈ routeRoads (fst (handle st e)) ->
    exists road, road ∈ roadFeatures /\ r = routeRoadOf road.
Proof.
  intros Hst.
  assert (Hsearch : forall query geoRes routeRes,
            (showLegend (fst (search st query geoRes routeRes)) = false ->
             routeCoords (fst (search st query geoRes routeRes)) = [] /\
             routeRoads (fst (search st query geoRes routeRes)) = []) /\
            NoDup (RouteRoad.name <$> routeRoads (fst (search st query geoRes routeRes))) /\
            forall r, r ∈ routeRoads (fst (search st query geoRes routeRes)) ->
              exists road, road ∈ roadFeatures /\ r = routeRoadOf road).
  { intros query geoRes routeRes.
    destruct (search_state_cases st query geoRes routeRes)
      as [-> | [[line ->] | (line & matched & Hm & ->)]]; simpl.
    - exact Hst.
    - split; [discriminate|]. apply Hst.
    - split; [discriminate|].
      destruct (matchRoadsFrom_result pointToLineDistance roadFeatures line [] matched Hm)
        as (_ & Hnd & Hent).
      split; [apply Hnd; constructor|].
      intros r [Hr | (_ & before & road & after & Hl & -> & _)]%Hent; [inversion Hr|].
      exists road. split; [|reflexivity].
      rewrite Hl. apply elem_of_app. right. apply list_elem_of_here. }
  destruct e as [coords now | text | geoRes routeRes | i geoRes routeRes]; simpl.
  - destruct (callback_keeps_search_state st coords now) as (_ & -> & -> & ->). exact Hst.
  - destruct (typing_keeps_other_state st text) as (_ & -> & -> & ->). exact Hst.
  - apply Hsearch.
  - destruct (suggestions st !! i) as [road|]; [apply Hsearch | exact Hst].
Qed.

(** X18. In every state the screen reaches from its initial state, while
    the legend is hidden there is no route and no matched road; the
    matched roads have distinct names; and each is the entry of a feature
    of the index: it has that feature's name ("Unnamed" without one); its
    limit is the feature's own, or without one what [roadsSpeeds] holds
    under the name, or without either 30; its colour is that of its
    limit, yellow up to 20, orange up to 30, red up to 40, green
    otherwise. *)
Theorem route_state_is_consistent (events : list Event) :
  (showLegend (run initialState events) = false ->
   routeCoords (run initialState events) = [] /\
   routeRoads (run initialState events) = []) /\
  NoDup (RouteRoad.name <$> routeRoads (run initialState events)) /\
  forall r, r ∈ routeRoads (run initialState events) ->
    exists road, road ∈ roadFeatures /\
      RouteRoad.name r = default "Unnamed"%string (propName road) /\
      (forall l, propSpeedLimit road = Some l -> RouteRoad.speed_limit r = Number l) /\
      (propSpeedLimit road = None ->
       forall v, roadsSpeeds (RouteRoad.name r) = Some v -> RouteRoad.speed_limit r = v) /\
      (propSpeedLimit road = None -> roadsSpeeds (RouteRoad.name r) = None ->
       RouteRoad.speed_limit r = Number 30) /\
      (forall l, RouteRoad.speed_limit r = Number l ->
         (l <= 20 -> RouteRoad.color r = "rgba(255,255,0,0.9)"%string) /\
         (20 < l -> l <= 30 -> RouteRoad.color r = "rgba(255,165,0,0.9)"%string) /\
         (30 < l -> l <= 40 -> RouteRoad.color r = "rgba(255,0,0,0.9)"%string) /\
         (40 < l -> RouteRoad.color r = "rgba(0,128,0,0.9)"%string)) /\
      (forall key, RouteRoad.speed_limit r = Inherited key ->
         RouteRoad.color r = "rgba(0,128,0,0.9)"%string).
Proof.
  pose proof (runEvents_invariant _ route_state_step events initialState) as H.
  destruct H as (Hlegend & Hnd & Hent).
  - simpl. split; [auto|]. split; [constructor|]. intros r Hr. inversion Hr.
  - split; [exact Hlegend|]. split; [exact Hnd|].
    intros r (road & Hroad & ->)%Hent. exists road.
    split; [exact Hroad|]. apply routeRoadOf_resolved.
Qed.

End ReachableFacts.

(** ** Pressing a suggestion, and the segments drawn *)

Section ScreenFacts.

Variable turfLineString : list Position -> option RoadFeature.
Variable pointToLineDistance : Position -> RoadFeature -> option Num.
Variable roadFeatures : list RoadFeature.

Local Abbreviation search := (handleSearch pointToLineDistance roadFeatures).
Local Abbreviation handle := (handleEvent turfLineString pointToLineDistance roadFeatures).
Local Abbreviation run := (runEvents turfLineString pointToLineDistance roadFeatures).
Local Abbreviation segment := (renderSegment roadFeatures).

Lemma search_keeps_suggestions (st : State) (query : string)
    (geoRes : Response (option (list Candidate.t)))
    (routeRes : Response (option (list Route.t))) :
  suggestions (fst (search st query geoRes routeRes)) = suggestions st.
Proof.
  destruct (search_state_cases pointToLineDistance roadFeatures st query geoRes routeRes)
    as [-> | [[line ->] | (line & matched & _ & ->)]]; reflexivity.
Qed.

Lemma suggestions_named_step (st : State) (e : Event) :
  (forall r, r ∈ suggestions st -> exists n, propName r = Some n /\ blank n = false) ->
  forall r, r ∈ suggestions (fst (handle st e)) ->
    exists n, propName r = Some n /\ blank n = false.
Proof.
  intros Hst r.
  destruct e as [coords now | text | geoRes routeRes | i geoRes routeRes]; simpl.
  - destruct (callback_keeps_search_state turfLineString pointToLineDistance roadFeatures
                st coords now) as (-> & _). apply Hst.
  - intros (Hb & _ & Hm)%suggestions_match.
    apply nameIncludes_spec in Hm as (n & Hn & Hc).
    exists n. split; [exact Hn|]. exact (containing_name_not_blank n text Hb Hc).
  - rewrite search_keeps_suggestions. apply Hst.
  - destruct (suggestions st !! i) as [road|]; [|apply Hst].
    unfold pressSuggestion. rewrite search_keeps_suggestions. apply Hst.
Qed.

Lemma search_asks_geocoder_first (st : State) (query : string)
    (geoRes : Response (option (list Candidate.t)))
    (routeRes : Response (option (list Route.t))) :
  blank query = false ->
  exists rest,
    snd (search st query geoRes routeRes)
    = FetchGeocode (query +:+ ", Baguio City, Philippines") :: rest.
Proof.
  intros Hb. unfold handleSearch. rewrite (search_not_blank query Hb).
  destruct geoRes as [|[[|dest cands]|]];
    destruct (userLocationRef st) as [userLoc|];
    destruct routeRes as [|[[|route routes]|]];
    try destruct (Route.coordinates _) as [line|];
    try destruct (matchRoads _ _ _) as [matched|];
    eexists; reflexivity.
Qed.

(** X19. In every state the screen reaches from its initial state, each
    suggestion on the screen has a name that is not blank, and pressing it
    starts a search for that name: the press never returns on the blank
    check, it asks the geocoder for the name followed by ", Baguio City,
    Philippines". *)
Theorem pressing_a_suggestion_searches (events : list Event) (i : nat)
    (road : RoadFeature)
    (geoRes : Response (option (list Candidate.t)))
    (routeRes : Response (option (list Route.t))) :
  suggestions (run initialState events) !! i = Some road ->
  exists n rest,
    propName road = Some n /\ blank n = false /\
    snd (handle (run initialState events) (PressSuggestion i geoRes routeRes))
    = FetchGeocode (n +:+ ", Baguio City, Philippines") :: rest.
Proof.
  intros Hi.
  assert (Hnamed : forall r, r ∈ suggestions (run initialState events) ->
            exists n, propName r = Some n /\ blank n = false).
  { apply (runEvents_invariant turfLineString pointToLineDistance roadFeatures
             (fun st => forall r, r ∈ suggestions st ->
                exists n, propName r = Some n /\ blank n = false)
             suggestions_named_step).
    intros r Hr. inversion Hr. }
  destruct (Hnamed road (list_elem_of_lookup_2 _ _ _ Hi)) as (n & Hn & Hb).
  destruct (search_asks_geocoder_first (run initialState events) n geoRes routeRes Hb)
    as [rest Hrest].
  exists n, rest. split; [exact Hn|]. split; [exact Hb|].
  simpl. rewrite Hi. unfold pressSuggestion. rewrite Hn. exact Hrest.
Qed.

(** X20. In every state the screen reaches from its initial state, the
    segment drawn for a matched road is the geometry of the first feature
    of the index bearing its name, in the colour of the matched road; it
    need not be the feature that was matched. A matched road that got its
    name "Unnamed" from features without a name is drawn by no segment
    when no feature is called "Unnamed". Drawing throws when that first
    feature has no geometry. *)
Theorem matched_road_segment (events : list Event) (r : RouteRoad.t) :
  r ∈ routeRoads (run initialState events) ->
  (exists feature,
     List.find (bearsName (RouteRoad.name r)) roadFeatures = Some feature /\
     feature ∈ roadFeatures /\
     propName feature = Some (RouteRoad.name r) /\
     segment r = match geometry feature with
                 | Some cs => Some (Polyline (map toLatLng cs) (RouteRoad.color r))
                 | None => None
                 end) \/
  (RouteRoad.name r = "Unnamed"%string /\
   (forall f, f ∈ roadFeatures -> propName f <> Some "Unnamed"%string) /\
   segment r = Some NoSegment).
Proof.
  intros Hr.
  destruct (runEvents_invariant turfLineString pointToLineDistance roadFeatures _
              (route_state_step turfLineString pointToLineDistance roadFeatures)
              events initialState) as (_ & _ & Hent).
  { simpl. split; [auto|]. split; [constructor|]. intros x Hx. inversion Hx. }
  destruct (Hent r Hr) as (road & Hroad & ->). clear Hent Hr.
  unfold renderSegment. simpl.
  destruct (List.find (bearsName (routeName road)) roadFeatures) as [feature|] eqn:Hfind.
  - left. exists feature. apply find_some in Hfind as [Hin Hbears].
    split; [reflexivity|]. split; [apply list_elem_of_In, Hin|]. split; [|reflexivity].
    unfold bearsName in Hbears. destruct (propName feature) as [m|]; [|discriminate].
    apply String.eqb_eq in Hbears. congruence.
  - right. pose proof (find_none _ _ Hfind) as Hnone.
    assert (Hname : routeName road = "Unnamed"%string).
    { pose proof (Hnone road (proj1 (list_elem_of_In _ _) Hroad)) as Hself.
      unfold bearsName, routeName in *. destruct (propName road) as [m|]; [|reflexivity].
      simpl in Hself. rewrite String.eqb_refl in Hself. discriminate. }
    split; [exact Hname|]. split; [|reflexivity].
    intros f Hf Hp. pose proof (Hnone f (proj1 (list_elem_of_In _ _) Hf)) as Hfalse.
    unfold bearsName in Hfalse. rewrite Hp, Hname in Hfalse. discriminate.
Qed.

End ScreenFacts.

(** After "Kenn" is typed, its one suggestion pressed searches for
    "Kennon Road". *)
Lemma pressing_a_suggestion_searches_witness :
  exists n rest,
    propName kennonRoad = Some n /\ blank n = false /\
    snd (handleEvent sampleLineString samplePointToLineDistance [sessionRoad; kennonRoad]
           (runEvents sampleLineString samplePointToLineDistance [sessionRoad; kennonRoad]
              initialState [ChangeText "Kenn"])
           (PressSuggestion 0 oneCandidate routeOnKennon))
    = FetchGeocode (n +:+ ", Baguio City, Philippines") :: rest.
Proof.
  refine (pressing_a_suggestion_searches sampleLineString samplePointToLineDistance
            [sessionRoad; kennonRoad] [ChangeText "Kenn"] 0 kennonRoad
            oneCandidate routeOnKennon _).
  reflexivity.
Defined.

(** Two features are named "Kennon Road"; the route passes on the second.
    The legend has the second one's limit, 50, in green; the segment drawn
    in green is the first one, a degree away from the route. *)
Lemma matched_road_segment_witness :
  routeRoads (runEvents sampleLineString samplePointToLineDistance [kennonRoadFar; kennonRoad]
                initialState
                [PositionFix onKennon 1700000000000; ChangeText "Kennon Road";
                 SubmitEditing oneCandidate routeOnKennon])
  = [routeRoadOf kennonRoad] /\
  ((exists feature,
      List.find (bearsName "Kennon Road") [kennonRoadFar; kennonRoad] = Some feature /\
      feature ∈ [kennonRoadFar; kennonRoad] /\
      propName feature = Some "Kennon Road"%string /\
      renderSegment [kennonRoadFar; kennonRoad] (routeRoadOf kennonRoad)
      = match geometry feature with
        | Some cs => Some (Polyline (map toLatLng cs) "rgba(0,128,0,0.9)")
        | None => None
        end) \/
   ("Kennon Road"%string = "Unnamed"%string /\
    (forall f, f ∈ [kennonRoadFar; kennonRoad] -> propName f <> Some "Unnamed"%string) /\
    renderSegment [kennonRoadFar; kennonRoad] (routeRoadOf kennonRoad) = Some NoSegment)).
Proof.
  split; [vm_compute; reflexivity|].
  refine (matched_road_segment sampleLineString samplePointToLineDistance
            [kennonRoadFar; kennonRoad]
            [PositionFix onKennon 1700000000000; ChangeText "Kennon Road";
             SubmitEditing oneCandidate routeOnKennon]
            (routeRoadOf kennonRoad) _).
  vm_compute. apply list_elem_of_here.
Defined.

Example far_segment_is_drawn :
  renderSegment [kennonRoadFar; kennonRoad] (routeRoadOf kennonRoad)
  = Some (Polyline (map toLatLng [(1216 # 10, 174 # 10); (12161 # 100, 1741 # 100)])
            "rgba(0,128,0,0.9)").
Proof. reflexivity. Qed.

Lemma road_shown_is_indexed_and_stays_witness :
  ("Session Road"%string <> EmptyString /\
   exists f, f ∈ [kennonRoad; sessionRoad] /\ propName f = Some "Session Road"%string) /\
  is_Some (currentRoad
             (runEvents sampleLineString samplePointToLineDistance [kennonRoad; sessionRoad]
                (fst (sampleCallback [kennonRoad; sessionRoad] initialState fastOnSession 10000))
                [PositionFix farAway 20000; ChangeText "x";
                 SubmitEditing oneCandidate routeOnKennon])).
Proof.
  split.
  - refine (proj1 (road_shown_is_indexed_and_stays sampleLineString samplePointToLineDistance
                     [kennonRoad; sessionRoad]
                     [PositionFix fastOnSession 10000; PositionFix farAway 20000])
              "Session Road"%string _).
    vm_compute. reflexivity.
  - refine (proj2 (road_shown_is_indexed_and_stays sampleLineString samplePointToLineDistance
                     [kennonRoad; sessionRoad]
                     [PositionFix farAway 20000; ChangeText "x";
                      SubmitEditing oneCandidate routeOnKennon]) _ _).
    vm_compute. eauto.
Defined.

(** A fix, the text "Kennon Road" typed and submitted, a route passing on
    Session Road and on Kennon Road: both are matched, at their table
    limits, in yellow and in green. Before the search nothing is drawn. *)
Lemma route_state_is_consistent_witness :
  routeRoads (runEvents sampleLineString samplePointToLineDistance
                [kennonRoadFar; sessionRoad; kennonRoad] initialState
                [PositionFix onKennon 1700000000000; ChangeText "Kennon Road";
                 SubmitEditing oneCandidate routeOnBoth])
  = [{| RouteRoad.name := "Session Road"; RouteRoad.speed_limit := Number 20;
        RouteRoad.color := "rgba(255,255,0,0.9)" |};
     {| RouteRoad.name := "Kennon Road"; RouteRoad.speed_limit := Number 50;
        RouteRoad.color := "rgba(0,128,0,0.9)" |}] /\
  (exists road, road ∈ [kennonRoadFar; sessionRoad; kennonRoad] /\
     "Kennon Road"%string = default "Unnamed"%string (propName road) /\
     (propSpeedLimit road = None ->
      forall v, roadsSpeeds "Kennon Road" = Some v -> Number 50 = v) /\
     (forall l, Number 50 = Number l -> 40 < l ->
        "rgba(0,128,0,0.9)"%string = "rgba(0,128,0,0.9)"%string)) /\
  (routeCoords (runEvents sampleLineString samplePointToLineDistance
                  [kennonRoadFar; sessionRoad; kennonRoad] initialState
                  [PositionFix onKennon 1700000000000; ChangeText "Kennon Road"]) = [] /\
   routeRoads (runEvents sampleLineString samplePointToLineDistance
                 [kennonRoadFar; sessionRoad; kennonRoad] initialState
                 [PositionFix onKennon 1700000000000; ChangeText "Kennon Road"]) = []).
Proof.
  split; [vm_compute; reflexivity|]. split.
  - destruct (route_state_is_consistent sampleLineString samplePointToLineDistance
                [kennonRoadFar; sessionRoad; kennonRoad]
                [PositionFix onKennon 1700000000000; ChangeText "Kennon Road";
                 SubmitEditing oneCandidate routeOnBoth]) as (_ & _ & H).
    destruct (H {| RouteRoad.name := "Kennon Road"; RouteRoad.speed_limit := Number 50;
                   RouteRoad.color := "rgba(0,128,0,0.9)" |})
      as (road & Hroad & Hname & _ & Htable & _ & Hcolour & _).
    { vm_compute. apply list_elem_of_further, list_elem_of_here. }
    exists road. split; [exact Hroad|]. split; [exact Hname|]. split; [exact Htable|].
    intros l Hl Hgt. exact (proj2 (proj2 (proj2 (Hcolour l Hl))) Hgt).
  - refine (proj1 (route_state_is_consistent sampleLineString samplePointToLineDistance
                     [kennonRoadFar; sessionRoad; kennonRoad]
                     [PositionFix onKennon 1700000000000; ChangeText "Kennon Road"]) _).
    reflexivity.
Defined.

(** The first fix arrives, then a search whose geocoder finds a place. *)
Lemma location_known_after_a_fix_witness :
  FetchRoute {| UserLoc.lat := 164 # 10; UserLoc.lon := 1206 # 10 |} (1206 # 10) (164 # 10)
    ∈ snd (sampleSearch [kennonRoad]
             (watchState sampleLineString samplePointToLineDistance [kennonRoad]
                initialState ([] ++ [(onKennon, 1700000000000%Z)]))
             "Kennon Road" oneCandidate routeOnKennon) /\
  {| UserLoc.lat := 164 # 10; UserLoc.lon := 1206 # 10 |}
  = {| UserLoc.lat := Coords.latitude onKennon; UserLoc.lon := Coords.longitude onKennon |}.
Proof.
  assert (Hin : FetchRoute {| UserLoc.lat := 164 # 10; UserLoc.lon := 1206 # 10 |}
                  (1206 # 10) (164 # 10)
                ∈ snd (sampleSearch [kennonRoad]
                         (watchState sampleLineString samplePointToLineDistance [kennonRoad]
                            initialState ([] ++ [(onKennon, 1700000000000%Z)]))
                         "Kennon Road" oneCandidate routeOnKennon)).
  { vm_compute. apply list_elem_of_further, list_elem_of_here. }
  split; [exact Hin|].
  destruct (location_known_after_a_fix sampleLineString samplePointToLineDistance
              [kennonRoad] initialState [] onKennon 1700000000000%Z "Kennon Road"
              oneCandidate routeOnKennon) as (_ & _ & H).
  exact (H _ _ _ Hin).
Defined.
